(** * RequestHandler: the fluent request builder of [src/utils/request-handler.ts]

    The class stores a base URL, a path, query parameters, headers, a body
    and a Playwright request object through chained setters, and its private
    [buildUrl] turns the stored base URL and parameters into a string with
    the host's [URL] class.

    Layout of the development:
    - [Url]: the part of the host's [URL] / [URLSearchParams] facility that
      [buildUrl] calls (WHATWG URL Standard), on UTF-8 byte strings;
    - [Js]: the JavaScript values the fields hold and [ToString];
    - [Handler]: the class itself, over a heap of instances and a console,
      with the URL parser of the host as a parameter of [buildUrl_with] and
      the modelled parser in [buildUrl];
    - lemmas about the host model, then the properties of the class. *)

From Stdlib Require Import ZArith NArith Ascii String List DecimalString Lia.
From stdpp Require Import base option list gmap strings.

Local Open Scope string_scope.
#[local] Arguments String.append !s1 s2 : simpl nomatch.

(** ** Strings

    A JavaScript string is represented by the bytes of its UTF-8 encoding, so
    that the host's "UTF-8 encode, then percent-encode each byte" is a map over
    the characters of a [string]. *)

Module Str.

Fixpoint forallb (p : ascii -> bool) (s : string) : bool :=
  match s with
  | EmptyString => true
  | String c r => p c && forallb p r
  end.

Fixpoint filter (p : ascii -> bool) (s : string) : string :=
  match s with
  | EmptyString => EmptyString
  | String c r => if p c then String c (filter p r) else filter p r
  end.

Fixpoint map (f : ascii -> ascii) (s : string) : string :=
  match s with
  | EmptyString => EmptyString
  | String c r => String (f c) (map f r)
  end.

Fixpoint drop_while (p : ascii -> bool) (s : string) : string :=
  match s with
  | EmptyString => EmptyString
  | String c r => if p c then drop_while p r else s
  end.

(** [break p s] cuts [s] before its first character satisfying [p]. *)
Fixpoint break (p : ascii -> bool) (s : string) : string * string :=
  match s with
  | EmptyString => (EmptyString, EmptyString)
  | String c r =>
      if p c then (EmptyString, s)
      else let '(a, b) := break p r in (String c a, b)
  end.

(** [cut p s] cuts [s] at its first character satisfying [p], which is
    dropped; the second component is [None] when there is none. *)
Fixpoint cut (p : ascii -> bool) (s : string) : string * option string :=
  match s with
  | EmptyString => (EmptyString, None)
  | String c r =>
      if p c then (EmptyString, Some r)
      else let '(a, b) := cut p r in (String c a, b)
  end.

(** [split p s]: the pieces of [s] between the characters satisfying [p];
    never the empty list. *)
Fixpoint split (p : ascii -> bool) (s : string) : list string :=
  match s with
  | EmptyString => [EmptyString]
  | String c r =>
      if p c then EmptyString :: split p r
      else match split p r with
           | x :: xs => String c x :: xs
           | [] => [String c EmptyString]
           end
  end.

Definition rev (s : string) : string :=
  string_of_list_ascii (List.rev (list_ascii_of_string s)).

Definition char (c : ascii) : ascii -> bool := Ascii.eqb c.

End Str.

(** ** Character classes of the URL and Infra standards *)

Module Chr.

Definition code (c : ascii) : N := N_of_ascii c.

Definition between (lo hi : N) (c : ascii) : bool :=
  (lo <=? code c)%N && (code c <=? hi)%N.

Definition is_digit : ascii -> bool := between 48 57.
Definition is_upper : ascii -> bool := between 65 90.
Definition is_lower : ascii -> bool := between 97 122.
Definition is_alpha (c : ascii) : bool := is_upper c || is_lower c.
Definition is_alnum (c : ascii) : bool := is_alpha c || is_digit c.
Definition is_hex (c : ascii) : bool :=
  is_digit c || between 65 70 c || between 97 102 c.

Definition one_of (s : string) (c : ascii) : bool :=
  negb (Str.forallb (fun d => negb (Ascii.eqb d c)) s).

Definition lower (c : ascii) : ascii :=
  if is_upper c then ascii_of_N (code c + 32) else c.

(** C0 control or space: U+0000 to U+0020. *)
Definition is_c0_or_space (c : ascii) : bool := (code c <=? 32)%N.

(** ASCII tab or newline: U+0009, U+000A, U+000D. *)
Definition is_tab_or_newline (c : ascii) : bool :=
  (code c =? 9)%N || (code c =? 10)%N || (code c =? 13)%N.

Definition hex_digit (n : N) : ascii :=
  if (n <? 10)%N then ascii_of_N (48 + n) else ascii_of_N (55 + n).

Definition hex_value (c : ascii) : option N :=
  if is_digit c then Some (code c - 48)%N
  else if between 65 70 c then Some (code c - 55)%N
  else if between 97 102 c then Some (code c - 87)%N
  else None.

End Chr.

(** ** UTF-8

    The byte strings of the model are the UTF-8 of JavaScript strings of
    Unicode scalar values: well-formed UTF-8.  Bytes that percent-decoding
    brings need not be; the decoder of the host reads them with replacement
    characters. *)

Module Utf8.

Definition cont : ascii -> bool := Chr.between 128 191.

(** Well-formed UTF-8 byte sequences (Unicode Standard, table 3-7). *)
Fixpoint valid (s : string) : bool :=
  match s with
  | EmptyString => true
  | String a r =>
      if (Chr.code a <=? 127)%N then valid r
      else
        match r with
        | String b r1 =>
            if Chr.between 194 223 a then cont b && valid r1
            else
              match r1 with
              | String c r2 =>
                  if Chr.between 224 239 a then
                    (if (Chr.code a =? 224)%N then Chr.between 160 191 b
                     else if (Chr.code a =? 237)%N then Chr.between 128 159 b
                     else cont b)
                    && cont c && valid r2
                  else
                    match r2 with
                    | String d r3 =>
                        Chr.between 240 244 a
                        && (if (Chr.code a =? 240)%N then Chr.between 144 191 b
                            else if (Chr.code a =? 244)%N then Chr.between 128 143 b
                            else cont b)
                        && cont c && cont d && valid r3
                    | EmptyString => false
                    end
              | EmptyString => false
              end
        | EmptyString => false
        end
  end.

(** U+FFFD, the replacement character, in UTF-8. *)
Definition replacement (rest : string) : string :=
  String (ascii_of_N 239) (String (ascii_of_N 191) (String (ascii_of_N 189) rest)).

(** The range of the byte that follows the first byte of a sequence of
    three or four bytes. *)
Definition second (a b : ascii) : bool :=
  if (Chr.code a =? 224)%N then Chr.between 160 191 b
  else if (Chr.code a =? 237)%N then Chr.between 128 159 b
  else if (Chr.code a =? 240)%N then Chr.between 144 191 b
  else if (Chr.code a =? 244)%N then Chr.between 128 143 b
  else cont b.

(** "UTF-8 decode without BOM" (Encoding Standard, section 4.1), the code
    points written back in UTF-8: a well-formed sequence stays as it is, and
    the decoder's error, raised once for a byte that starts no sequence and
    once for a sequence cut short, after which the byte that cut it short is
    read again, gives U+FFFD. *)
Fixpoint decode (s : string) : string :=
  match s with
  | EmptyString => EmptyString
  | String a r =>
      if (Chr.code a <=? 127)%N then String a (decode r)
      else if Chr.between 194 223 a then
        match r with
        | String b r1 =>
            if cont b then String a (String b (decode r1))
            else replacement (decode r)
        | EmptyString => replacement EmptyString
        end
      else if Chr.between 224 239 a then
        match r with
        | String b r1 =>
            if second a b then
              match r1 with
              | String c r2 =>
                  if cont c then String a (String b (String c (decode r2)))
                  else replacement (decode r1)
              | EmptyString => replacement EmptyString
              end
            else replacement (decode r)
        | EmptyString => replacement EmptyString
        end
      else if Chr.between 240 244 a then
        match r with
        | String b r1 =>
            if second a b then
              match r1 with
              | String c r2 =>
                  if cont c then
                    match r2 with
                    | String d r3 =>
                        if cont d then
                          String a (String b (String c (String d (decode r3))))
                        else replacement (decode r2)
                    | EmptyString => replacement EmptyString
                    end
                  else replacement (decode r1)
              | EmptyString => replacement EmptyString
              end
            else replacement (decode r)
        | EmptyString => replacement EmptyString
        end
      else replacement (decode r)
  end.

End Utf8.

(** ** Percent-encoding (URL Standard, section 1.3) *)

Module Pct.

(** Percent-encode a byte: "%" and two upper-case hexadecimal digits. *)
Definition encode_byte (c : ascii) (rest : string) : string :=
  String "%" (String (Chr.hex_digit (Chr.code c / 16))
             (String (Chr.hex_digit (Chr.code c mod 16)) rest)).

(** Percent-encode after encoding, for an input that is already UTF-8:
    every byte in the set is replaced by its percent-encoding. *)
Fixpoint encode (in_set : ascii -> bool) (s : string) : string :=
  match s with
  | EmptyString => EmptyString
  | String c r =>
      if in_set c then encode_byte c (encode in_set r)
      else String c (encode in_set r)
  end.

(** Percent-decode a byte sequence: a "%" that two hexadecimal digits do
    not follow stays as it is. *)
Fixpoint decode (s : string) : string :=
  match s with
  | EmptyString => EmptyString
  | String c r =>
      if Ascii.eqb c "%" then
        match r with
        | String h (String l r') =>
            match Chr.hex_value h, Chr.hex_value l with
            | Some a, Some b => String (ascii_of_N (16 * a + b)) (decode r')
            | _, _ => String c (decode r)
            end
        | _ => String c (decode r)
        end
      else String c (decode r)
  end.

(** The percent-encode sets, as predicates on bytes.  A byte above 0x7E is
    either U+007F or part of the encoding of a non-ASCII code point; both
    are in the C0 control percent-encode set. *)
Definition c0_control_set (c : ascii) : bool :=
  (Chr.code c <? 32)%N || (126 <? Chr.code c)%N.

(** U+0022, the double quote. *)
Definition is_quote (c : ascii) : bool := (Chr.code c =? 34)%N.

Definition fragment_set (c : ascii) : bool :=
  c0_control_set c || is_quote c || Chr.one_of " <>`" c.

Definition query_set (c : ascii) : bool :=
  c0_control_set c || is_quote c || Chr.one_of " #<>" c.

Definition special_query_set (c : ascii) : bool :=
  query_set c || Chr.one_of "'" c.

Definition path_set (c : ascii) : bool :=
  query_set c || Chr.one_of "?^`{}" c.

Definition userinfo_set (c : ascii) : bool :=
  path_set c || Chr.one_of "/:;=@[\]|" c.

Definition component_set (c : ascii) : bool :=
  userinfo_set c || Chr.one_of "$%&+," c.

Definition urlencoded_set (c : ascii) : bool :=
  component_set c || Chr.one_of "!'()~" c.

End Pct.

(** ** application/x-www-form-urlencoded (URL Standard, section 5) *)

Module Form.

(** Percent-encode after encoding with the urlencoded set and
    space-as-plus. *)
Fixpoint encode (s : string) : string :=
  match s with
  | EmptyString => EmptyString
  | String c r =>
      if Ascii.eqb c " " then String "+" (encode r)
      else if Pct.urlencoded_set c then Pct.encode_byte c (encode r)
      else String c (encode r)
  end.

Definition serialize_tuple (t : string * string) : string :=
  encode t.1 ++ "=" ++ encode t.2.

(** The urlencoded serializer: tuples joined by "&". *)
Fixpoint serialize (l : list (string * string)) : string :=
  match l with
  | [] => ""
  | [t] => serialize_tuple t
  | t :: rest => serialize_tuple t ++ "&" ++ serialize rest
  end.

Definition plus_to_space (c : ascii) : ascii :=
  if Ascii.eqb c "+" then " "%char else c.

Definition decode (s : string) : string :=
  Pct.decode (Str.map plus_to_space s).

Definition parse_sequence (bytes : string) : string * string :=
  let '(name, value) := Str.cut (Str.char "=") bytes in
  (Utf8.decode (decode name), Utf8.decode (decode (default "" value))).

(** The urlencoded parser: split on "&", skip empty sequences, split each
    at its first "=", replace "+" by a space, percent-decode and UTF-8
    decode the name and the value. *)
Definition parse (input : string) : list (string * string) :=
  parse_sequence <$>
    List.filter (fun b => negb (String.eqb b "")) (Str.split (Str.char "&") input).

End Form.

(** ** The URL record, its parser and its serializer

    The record and the serializer are those of the URL Standard.  The parser
    follows the basic URL parser for an input without base URL, on the
    inputs it covers: the special schemes other than [file], with or without
    credentials, a domain written in ASCII or an IPv4 address as host, an
    optional port, a path, a query and a fragment.  The inputs it leaves out
    are answered [Unsupported], never [Failure] or [Parsed]: IPv6 hosts,
    non-ASCII and punycode hosts, [file] and the non-special schemes, and a
    path with "^", which hosts written before the character joined the path
    percent-encode set leave as it is. *)

Module Url.

Inductive url_path :=
| Opaque (s : string)
| Segments (l : list string).

(** The host is kept as the host serializer writes it. *)
Record URLRecord := mkURLRecord {
  scheme : string;
  username : string;
  password : string;
  host : option string;
  port : option N;
  path : url_path;
  query : option string;
  fragment : option string
}.

Inductive parse_result :=
| Parsed (u : URLRecord)
| Failure
| Unsupported.

Inductive host_result :=
| Host (h : string)
| HostFailure
| HostUnsupported.

Definition special_schemes : list (string * N) :=
  [("ftp", 21); ("http", 80); ("https", 443); ("ws", 80); ("wss", 443)]%N.

Definition default_port (sch : string) : option N :=
  snd <$> List.find (fun e => String.eqb (fst e) sch) special_schemes.

(** Leading and trailing C0 control or space are stripped, then every
    ASCII tab or newline is removed. *)
Definition preprocess (input : string) : string :=
  let trimmed :=
    Str.rev (Str.drop_while Chr.is_c0_or_space
               (Str.rev (Str.drop_while Chr.is_c0_or_space input))) in
  Str.filter (fun c => negb (Chr.is_tab_or_newline c)) trimmed.

Definition is_scheme_char (c : ascii) : bool :=
  Chr.is_alnum c || Chr.one_of "+-." c.

(** Scheme start state and scheme state: an ASCII letter, then scheme
    characters up to ":".  [None] is the no-scheme state. *)
Definition split_scheme (s : string) : option (string * string) :=
  match s with
  | EmptyString => None
  | String c _ =>
      if Chr.is_alpha c then
        match Str.break (fun d => negb (is_scheme_char d)) s with
        | (sch, String d rest) =>
            if Ascii.eqb d ":" then Some (Str.map Chr.lower sch, rest)
            else None
        | (_, EmptyString) => None
        end
      else None
  end.

Definition is_slash (c : ascii) : bool := Chr.one_of "/\" c.

Definition forbidden_host_code_point (c : ascii) : bool :=
  (Chr.code c =? 0)%N || Chr.is_tab_or_newline c
  || Chr.one_of " #/:<>?@[\]^|" c.

Definition forbidden_domain_code_point (c : ascii) : bool :=
  forbidden_host_code_point c || (Chr.code c <=? 31)%N
  || Chr.one_of "%" c || (Chr.code c =? 127)%N.

Definition has_prefix (p s : string) : bool := String.prefix p s.

Definition is_ascii (c : ascii) : bool := (Chr.code c <=? 127)%N.

(** *** IPv4 *)

(** The value of a string of digits in radix [R], [None] when a character
    is not a digit of that radix. *)
Fixpoint radix_value (R acc : N) (s : string) : option N :=
  match s with
  | EmptyString => Some acc
  | String c r =>
      match Chr.hex_value c with
      | Some v => if (v <? R)%N then radix_value R (acc * R + v)%N r else None
      | None => None
      end
  end.

(** The IPv4 number parser: "0x" announces hexadecimal, another leading
    "0" octal; what is left after the prefix may be empty. *)
Definition parse_ipv4_number (input : string) : option N :=
  match input with
  | EmptyString => None
  | String a (String b r) =>
      if Ascii.eqb a "0" && (Ascii.eqb b "x" || Ascii.eqb b "X")
      then radix_value 16 0 r
      else if Ascii.eqb a "0" then radix_value 8 0 (String b r)
      else radix_value 10 0 input
  | String _ EmptyString => radix_value 10 0 input
  end.

(** An empty last part is dropped when it is not the only one. *)
Definition drop_last_empty (parts : list string) : list string :=
  match List.rev parts with
  | EmptyString :: (x :: xs) => List.rev (x :: xs)
  | _ => parts
  end.

(** The ends-in-a-number checker. *)
Definition ends_in_number (h : string) : bool :=
  match List.rev (drop_last_empty (Str.split (Str.char ".") h)) with
  | [] => false
  | last :: _ =>
      negb (String.eqb last "")
      && (Str.forallb Chr.is_digit last
          || match parse_ipv4_number last with Some _ => true | None => false end)
  end.

Fixpoint ipv4_sum (counter : nat) (numbers : list N) : N :=
  match numbers with
  | [] => 0
  | n :: rest => (n * 256 ^ N.of_nat (3 - counter) + ipv4_sum (S counter) rest)%N
  end.

(** The IPv4 parser: at most four numbers, all but the last below 256, the
    last one filling the bytes that are left. *)
Definition parse_ipv4 (input : string) : option N :=
  let parts := drop_last_empty (Str.split (Str.char ".") input) in
  if (4 <? length parts)%nat then None
  else
    match mapM parse_ipv4_number parts with
    | None => None
    | Some numbers =>
        match List.rev numbers with
        | [] => None
        | last :: front =>
            if existsb (fun n => (255 <? n)%N) front then None
            else if (256 ^ N.of_nat (5 - length numbers) <=? last)%N then None
            else Some (last + ipv4_sum 0 (List.rev front))%N
        end
    end.

Definition decimal (n : N) : string := NilZero.string_of_uint (N.to_uint n).

(** The IPv4 serializer: four decimal numbers and dots. *)
Definition serialize_ipv4 (n : N) : string :=
  decimal (n / 16777216) ++ "." ++ decimal ((n / 65536) mod 256) ++ "."
  ++ decimal ((n / 256) mod 256) ++ "." ++ decimal (n mod 256).

(** *** The host parser, for a host that is not opaque

    The input is percent-decoded; for an ASCII domain without punycode
    label, domain-to-ASCII is ASCII lower-casing. *)
Definition parse_host (input : string) : host_result :=
  let domain := Pct.decode input in
  if negb (Str.forallb is_ascii domain) then HostUnsupported
  else
    let ascii_domain := Str.map Chr.lower domain in
    if existsb (has_prefix "xn--") (Str.split (Str.char ".") ascii_domain)
    then HostUnsupported
    else if negb (Str.forallb (fun c => negb (forbidden_domain_code_point c)) ascii_domain)
    then HostFailure
    else if ends_in_number ascii_domain then
      match parse_ipv4 ascii_domain with
      | Some n => Host (serialize_ipv4 n)
      | None => HostFailure
      end
    else Host ascii_domain.

(** *** Port, path and credentials *)

Fixpoint digits_value (acc : N) (s : string) : N :=
  match s with
  | EmptyString => acc
  | String c r => digits_value (10 * acc + (Chr.code c - 48))%N r
  end.

(** Port state. *)
Definition parse_port (sch : string) (p : option string) : option (option N) :=
  match p with
  | None => Some None
  | Some EmptyString => Some None
  | Some digits =>
      if Str.forallb Chr.is_digit digits then
        let n := digits_value 0 digits in
        if (65535 <? n)%N then None
        else if decide (default_port sch = Some n) then Some None
        else Some (Some n)
      else None
  end.

Definition lower_eq (a b : string) : bool := String.eqb (Str.map Chr.lower a) b.

Definition is_single_dot (seg : string) : bool :=
  lower_eq seg "." || lower_eq seg "%2e".

Definition is_double_dot (seg : string) : bool :=
  lower_eq seg ".." || lower_eq seg ".%2e"
  || lower_eq seg "%2e." || lower_eq seg "%2e%2e".

(** Path state, one segment at a time; a segment is the last one when the
    end of the path, not a slash, follows it. *)
Fixpoint path_state (segs : list string) (acc : list string) : list string :=
  match segs with
  | [] => acc
  | seg :: rest =>
      let buffer := Pct.encode Pct.path_set seg in
      let last := match rest with [] => true | _ => false end in
      let acc' :=
        if is_double_dot buffer then
          (if last then (removelast acc ++ [""])%list else removelast acc)
        else if is_single_dot buffer then
          (if last then (acc ++ [""])%list else acc)
        else (acc ++ [buffer])%list in
      path_state rest acc'
  end.

(** Path start state: one leading slash is consumed. *)
Definition parse_path (p : string) : list string :=
  let p' := match p with
            | String c r => if is_slash c then r else p
            | EmptyString => p
            end in
  path_state (Str.split is_slash p') [].

(** The authority is cut at its last "@": the credentials before it, the
    host and the port after it. *)
Definition split_authority (authority : string) : option string * string :=
  let '(after, before) := Str.cut (Str.char "@") (Str.rev authority) in
  (Str.rev <$> before, Str.rev after).

(** The credentials are cut at their first ":" and percent-encoded. *)
Definition parse_userinfo (userinfo : option string) : string * string :=
  match userinfo with
  | None => ("", "")
  | Some i =>
      let '(u, p) := Str.cut (Str.char ":") i in
      (Pct.encode Pct.userinfo_set u, Pct.encode Pct.userinfo_set (default "" p))
  end.

(** Authority, host, port and path states for a special scheme. *)
Definition parse_special (sch rest : string) (q f : option string) : parse_result :=
  let after_slashes := Str.drop_while is_slash rest in
  let '(authority, tail) := Str.break is_slash after_slashes in
  let '(userinfo, hostport) := split_authority authority in
  if Str.forallb (fun c => negb (Chr.one_of "[]" c)) hostport then
    let '(h, p) := Str.cut (Str.char ":") hostport in
    if String.eqb h "" then Failure
    else
      match parse_host h with
      | HostUnsupported => Unsupported
      | HostFailure => Failure
      | Host h' =>
          match parse_port sch p with
          | None => Failure
          | Some prt =>
              if Str.forallb (fun c => negb (Ascii.eqb c "^")) tail then
                Parsed {| scheme := sch;
                          username := (parse_userinfo userinfo).1;
                          password := (parse_userinfo userinfo).2;
                          host := Some h';
                          port := prt;
                          path := Segments (parse_path tail);
                          query := Pct.encode Pct.special_query_set <$> q;
                          fragment := Pct.encode Pct.fragment_set <$> f |}
              else Unsupported
          end
      end
  else Unsupported.

(** The basic URL parser without base URL. *)
Definition parse (input : string) : parse_result :=
  let s := preprocess input in
  let '(s, f) := Str.cut (Str.char "#") s in
  let '(s, q) := Str.cut (Str.char "?") s in
  match split_scheme s with
  | None => Failure
  | Some (sch, rest) =>
      if decide (is_Some (default_port sch)) then parse_special sch rest q f
      else Unsupported
  end.

(** *** The URL serializer *)

Fixpoint serialize_segments (p : list string) : string :=
  match p with
  | [] => ""
  | seg :: rest => "/" ++ seg ++ serialize_segments rest
  end.

(** The URL path serializer. *)
Definition serialize_path (p : url_path) : string :=
  match p with
  | Opaque s => s
  | Segments l => serialize_segments l
  end.

Definition opt_prefix (sep : string) (o : option string) : string :=
  match o with Some x => sep ++ x | None => "" end.

Definition serialize_credentials (u : URLRecord) : string :=
  if String.eqb (username u) "" && String.eqb (password u) "" then ""
  else username u ++ (if String.eqb (password u) "" then "" else ":" ++ password u) ++ "@".

(** What stands between the scheme and the path: the authority, or "/."
    before a path that would read as one. *)
Definition serialize_authority (u : URLRecord) : string :=
  match host u with
  | Some h => "//" ++ serialize_credentials u ++ h ++ opt_prefix ":" (decimal <$> port u)
  | None =>
      match path u with
      | Segments (EmptyString :: _ :: _) => "/."
      | _ => ""
      end
  end.

Definition serialize (u : URLRecord) : string :=
  scheme u ++ ":" ++ serialize_authority u ++ serialize_path (path u)
  ++ opt_prefix "?" (query u) ++ opt_prefix "#" (fragment u).

(** *** The [URL] object and its [searchParams] *)

Record URL := mkURL {
  url : URLRecord;
  searchParams : list (string * string)
}.

(** The URL object of a record: the query object is initialised from the
    record's query. *)
Definition of_record (u : URLRecord) : URL :=
  {| url := u; searchParams := Form.parse (default "" (query u)) |}.

(** [url.searchParams.append(name, value)] with its update steps: the
    list grows at its end and the query becomes its serialization ([null]
    when that is empty). *)
Definition append (name value : string) (o : URL) : URL :=
  let l := (searchParams o ++ [(name, value)])%list in
  let serialized := Form.serialize l in
  let u := url o in
  {| url := {| scheme := scheme u; username := username u; password := password u;
               host := host u; port := port u; path := path u;
               query := if String.eqb serialized "" then None else Some serialized;
               fragment := fragment u |};
     searchParams := l |}.

(** [url.toString()], the href. *)
Definition toString (o : URL) : string := serialize (url o).

(** The query string of an href: what stands between its first "?" and its
    first "#"; [None] when no "?" comes before the first "#". *)
Definition href_query (href : string) : option string :=
  (Str.cut (Str.char "?") (Str.cut (Str.char "#") href).1).2.

(** The pairs a standard decoder reads off an href. *)
Definition href_pairs (href : string) : list (string * string) :=
  Form.parse (default "" (href_query href)).

End Url.

(** ** JavaScript values *)

Module Js.

#[local] Unset Elimination Schemes.
(** The values the fields of the class hold.  [Number z] is the Number of
    integer value [z]; an [Object] is a plain object, given by its own
    enumerable properties in the order [Object.entries] lists them.
    Numbers that are not integers, arrays, functions and strings with lone
    surrogates have no representation. *)
Inductive value :=
| Undefined
| Null
| Boolean (b : bool)
| Number (z : Z)
| String (s : string)
| Object (props : list (string * value)).
#[local] Set Elimination Schemes.

Definition object : Type := list (string * value).

(** [Object.entries(o)]. *)
Definition entries (o : object) : list (string * value) := o.

Inductive error :=
| TypeError (message : string).

(** How a call ends: it returns, it throws, or it leaves the modelled
    part of the host ([OutOfModel]). *)
Inductive outcome (A : Type) :=
| Returns (a : A)
| Throws (e : error)
| OutOfModel.
Arguments Returns {A} a.
Arguments Throws {A} e.
Arguments OutOfModel {A}.

(** The integers every Number holds exactly and writes in decimal: those
    of magnitude at most 2^53 - 1. *)
Definition safe_integer (z : Z) : bool := (Z.abs z <=? 9007199254740991)%Z.

(** [ToString].  A Number outside the safe integers is left out.  An object
    goes through [toString] then [valueOf]: with an own property [toString],
    which no value of the model can make callable, neither gives a
    primitive and the conversion throws; without one,
    [Object.prototype.toString] answers. *)
Definition ToString (v : value) : outcome string :=
  match v with
  | Undefined => Returns "undefined"
  | Null => Returns "null"
  | Boolean true => Returns "true"
  | Boolean false => Returns "false"
  | Number z =>
      if safe_integer z then Returns (NilZero.string_of_int (Z.to_int z))
      else OutOfModel
  | String s => Returns s
  | Object props =>
      if existsb (fun p => String.eqb p.1 "toString") props
      then Throws (TypeError "Cannot convert object to primitive value")
      else Returns "[object Object]"
  end.

(** One conversion after another: the first that does not return ends
    the whole. *)
Definition and_then {A B} (r : outcome A) (k : A -> outcome B) : outcome B :=
  match r with
  | Returns a => k a
  | Throws e => Throws e
  | OutOfModel => OutOfModel
  end.

(** The conversion of a string to a [USVString], which the methods of the
    URL interfaces apply to their arguments, replaces lone surrogates by
    U+FFFD and leaves strings of scalar values as they are.  A byte string
    that is not well-formed UTF-8 stands for no such string. *)
Definition USVString (s : string) : outcome string :=
  if Utf8.valid s then Returns s else OutOfModel.

(** [a ?? b]: the right operand only when the left one is [null] or
    [undefined]. *)
Definition nullish_coalesce (a b : value) : value :=
  match a with
  | Undefined | Null => b
  | _ => a
  end.

End Js.

(** ** The class *)

Module Handler.
Import Js.

Record RequestHandler := mkRequestHandler {
  defaultBaseUrl : string;
  baseUrl : string;
  apiPath : string;
  apiParams : object;
  apiHeader : object;
  apiBody : object;
  request : value
}.

(** The field initialisers. *)
Definition initial : RequestHandler :=
  {| defaultBaseUrl := "https://conduit-api.bondaracademy.com";
     baseUrl := "";
     apiPath := "";
     apiParams := [];
     apiHeader := [];
     apiBody := [];
     request := Null |}.

Definition loc := positive.

(** The instances alive and what was written to the console. *)
Record world := mkWorld {
  heap : gmap loc RequestHandler;
  console : list string
}.

Definition empty_world : world := {| heap := ∅; console := [] |}.

(** Computations on the world that end in an [outcome]. *)
Definition M (A : Type) : Type := world -> outcome A * world.

Definition ret {A} (a : A) : M A := fun w => (Returns a, w).

Definition throw {A} (e : error) : M A := fun w => (Throws e, w).

Definition bind {A B} (m : M A) (k : A -> M B) : M B :=
  fun w =>
    match m w with
    | (Returns a, w') => k a w'
    | (Throws e, w') => (Throws e, w')
    | (OutOfModel, w') => (OutOfModel, w')
    end.

#[global] Instance M_ret : MRet M := @ret.
#[global] Instance M_bind : MBind M := fun A B k m => bind m k.

(** Reading the fields of [this]; a reference always denotes a live
    instance, so a missing one is outside the model. *)
Definition get (this : loc) : M RequestHandler :=
  fun w =>
    match heap w !! this with
    | Some o => (Returns o, w)
    | None => (OutOfModel, w)
    end.

(** Assigning to fields of [this]. *)
Definition assign (this : loc) (f : RequestHandler -> RequestHandler) : M unit :=
  fun w => (Returns tt, {| heap := alter f this (heap w); console := console w |}).

Definition console_log (line : string) : M unit :=
  fun w => (Returns tt, {| heap := heap w; console := (console w ++ [line])%list |}).

(** [new RequestHandler()]. *)
Definition new : M loc :=
  fun w =>
    let this := fresh (dom (heap w)) in
    (Returns this, {| heap := <[this := initial]> (heap w); console := console w |}).

Definition set_baseUrl (x : string) (o : RequestHandler) : RequestHandler :=
  {| defaultBaseUrl := defaultBaseUrl o; baseUrl := x; apiPath := apiPath o;
     apiParams := apiParams o; apiHeader := apiHeader o; apiBody := apiBody o;
     request := request o |}.

Definition set_apiPath (x : string) (o : RequestHandler) : RequestHandler :=
  {| defaultBaseUrl := defaultBaseUrl o; baseUrl := baseUrl o; apiPath := x;
     apiParams := apiParams o; apiHeader := apiHeader o; apiBody := apiBody o;
     request := request o |}.

Definition set_apiParams (x : object) (o : RequestHandler) : RequestHandler :=
  {| defaultBaseUrl := defaultBaseUrl o; baseUrl := baseUrl o; apiPath := apiPath o;
     apiParams := x; apiHeader := apiHeader o; apiBody := apiBody o;
     request := request o |}.

Definition set_apiHeader (x : object) (o : RequestHandler) : RequestHandler :=
  {| defaultBaseUrl := defaultBaseUrl o; baseUrl := baseUrl o; apiPath := apiPath o;
     apiParams := apiParams o; apiHeader := x; apiBody := apiBody o;
     request := request o |}.

Definition set_apiBody (x : object) (o : RequestHandler) : RequestHandler :=
  {| defaultBaseUrl := defaultBaseUrl o; baseUrl := baseUrl o; apiPath := apiPath o;
     apiParams := apiParams o; apiHeader := apiHeader o; apiBody := x;
     request := request o |}.

Definition set_request (x : value) (o : RequestHandler) : RequestHandler :=
  {| defaultBaseUrl := defaultBaseUrl o; baseUrl := baseUrl o; apiPath := apiPath o;
     apiParams := apiParams o; apiHeader := apiHeader o; apiBody := apiBody o;
     request := x |}.

(** *** The public methods; each ends in [return this] *)

Definition url (url : string) (this : loc) : M loc :=
  assign this (set_baseUrl url) ;; ret this.

Definition path (path : string) (this : loc) : M loc :=
  assign this (set_apiPath path) ;; ret this.

Definition param (param : object) (this : loc) : M loc :=
  assign this (set_apiParams param) ;; ret this.

Definition header (header : object) (this : loc) : M loc :=
  assign this (set_apiHeader header) ;; ret this.

Definition body (body : object) (this : loc) : M loc :=
  assign this (set_apiBody body) ;; ret this.

Definition withRequest (request : value) (this : loc) : M loc :=
  assign this (set_request request) ;; ret this.

Definition reset (this : loc) : M loc :=
  assign this (set_baseUrl "") ;;
  assign this (set_apiPath "") ;;
  assign this (set_apiParams []) ;;
  assign this (set_apiHeader []) ;;
  assign this (set_apiBody []) ;;
  ret this.

(** *** The private [buildUrl] *)

(** A computation that has no effect on the world. *)
Definition lift {A} (r : outcome A) : M A := fun w => (r, w).

(** [new URL(input)], with the URL parser of the host as [parse]: it throws
    a [TypeError] when parsing fails. *)
Definition new_URL_with (parse : string -> Url.parse_result) (input : string)
    : M Url.URL :=
  match parse input with
  | Url.Parsed u => ret (Url.of_record u)
  | Url.Failure => throw (TypeError "Invalid URL")
  | Url.Unsupported => lift OutOfModel
  end.

(** The loop over [Object.entries(this.apiParams)]: [append] takes two
    [USVString]s, so the value is converted to a string, which may throw. *)
Fixpoint append_entries (entries : list (string * value)) (u : Url.URL) : M Url.URL :=
  match entries with
  | [] => ret u
  | (Key, value) :: rest =>
      name ← lift (USVString Key) ;
      s ← lift (ToString value) ;
      v ← lift (USVString s) ;
      append_entries rest (Url.append name v u)
  end.

Definition buildUrl_with (parse : string -> Url.parse_result) (this : loc) : M string :=
  o ← get this ;
  input ← lift (ToString (nullish_coalesce (String (baseUrl o))
                                           (String (defaultBaseUrl o)))) ;
  u ← new_URL_with parse input ;
  u ← append_entries (entries (apiParams o)) u ;
  console_log (Url.toString u) ;;
  ret (Url.toString u).

(** [new URL] and [buildUrl] on the URL parser modelled in [Url]. *)
Definition new_URL : string -> M Url.URL := new_URL_with Url.parse.

Definition buildUrl : loc -> M string := buildUrl_with Url.parse.

(** *** The public interface *)

(** A call of a public method, with its arguments. *)
Inductive call :=
| Curl (url : string)
| Cpath (path : string)
| Cparam (param : object)
| Cheader (header : object)
| Cbody (body : object)
| CwithRequest (request : value)
| Creset.

Definition invoke (c : call) : loc -> M loc :=
  match c with
  | Curl u => url u
  | Cpath p => path p
  | Cparam p => param p
  | Cheader h => header h
  | Cbody b => body b
  | CwithRequest r => withRequest r
  | Creset => reset
  end.

(** A chain [this.c1(..).c2(..)...]: each call is made on what the call
    before it returned. *)
Fixpoint chain (cs : list call) (this : loc) : M loc :=
  match cs with
  | [] => ret this
  | c :: rest => r ← invoke c this ; chain rest r
  end.

(** What a client of the public interface sees of a sequence of calls on
    [this]: the value each call returned. *)
Fixpoint trace (cs : list call) (this : loc) : M (list loc) :=
  match cs with
  | [] => ret []
  | c :: rest => r ← invoke c this ; rs ← trace rest this ; ret (r :: rs)
  end.

(** A session as the tests run one: a new instance, a chain of public
    calls, then the URL is built. *)
Definition session (cs : list call) : M string :=
  this ← new ; this ← chain cs this ; buildUrl this.

(** The [api] fixture of [utils/fixture.ts]: every test gets an instance
    made for it, and runs with it. *)
Definition api_fixture {A} (use : loc -> M A) : M A :=
  requestHandler ← new ; use requestHandler.

End Handler.

(** ** Auxiliary notions for the proofs *)

(** A property of all 256 bytes, by enumeration. *)
Ltac each_byte c := destruct c as [[] [] [] [] [] [] [] []].

(** An encoded byte is "%" and two hexadecimal digits: whatever holds of
    those holds of the encoding. *)
Definition pct_alphabet (q : ascii -> bool) : bool :=
  q "%"%char && Str.forallb q "0123456789ABCDEF".

(** The characters a urlencoded name or value is written with: the bytes
    outside the urlencoded set, "+" and "%". *)
Definition form_char (c : ascii) : bool :=
  Chr.is_alnum c || Chr.one_of "*-._+%" c.

(** Neither "?" nor "#": the characters that may stand before the query of
    an href. *)
Definition plain (c : ascii) : bool := negb (Chr.one_of "?#" c).

Definition no_hash (c : ascii) : bool := negb (Str.char "#" c).

(** Printable ASCII, the space left out: U+0021 to U+007E. *)
Definition printable : ascii -> bool := Chr.between 33 126.

(** All characters of the components of a record satisfy [q]. *)
Record record_chars (q : ascii -> bool) (u : Url.URLRecord) : Prop := mk_record_chars {
  chars_scheme : Str.forallb q (Url.scheme u) = true;
  chars_username : Str.forallb q (Url.username u) = true;
  chars_password : Str.forallb q (Url.password u) = true;
  chars_host : forall h, Url.host u = Some h -> Str.forallb q h = true;
  chars_path :
    match Url.path u with
    | Url.Opaque s => Str.forallb q s = true
    | Url.Segments l => Forall (fun seg => Str.forallb q seg = true) l
    end;
  chars_query : forall x, Url.query u = Some x -> Str.forallb q x = true;
  chars_fragment : forall x, Url.fragment u = Some x -> Str.forallb q x = true
}.

(** What the URL Standard's parser guarantees of a record, and [append]
    keeps: no "?" and no "#" before the query, no "#" in the query. *)
Record wf_url (u : Url.URLRecord) : Prop := mk_wf_url {
  wf_scheme : Str.forallb plain (Url.scheme u) = true;
  wf_username : Str.forallb plain (Url.username u) = true;
  wf_password : Str.forallb plain (Url.password u) = true;
  wf_host : forall h, Url.host u = Some h -> Str.forallb plain h = true;
  wf_path :
    match Url.path u with
    | Url.Opaque s => Str.forallb plain s = true
    | Url.Segments l => Forall (fun seg => Str.forallb plain seg = true) l
    end;
  wf_query : forall q, Url.query u = Some q -> Str.forallb no_hash q = true
}.

(** Two properties of a URL parser, which the parser of the URL Standard
    has: its records are well formed, and the query of a record decodes to
    the pairs of the query of the input. *)
Definition parses_well (parse : string -> Url.parse_result) : Prop :=
  forall s u, parse s = Url.Parsed u -> wf_url u.

Definition keeps_query (parse : string -> Url.parse_result) : Prop :=
  forall s u, parse s = Url.Parsed u ->
    Form.parse (default "" (Url.query u)) = Url.href_pairs (Url.preprocess s).

(** The query object mirrors the query of the record. *)
Definition synced (o : Url.URL) : Prop :=
  Url.searchParams o = Form.parse (default "" (Url.query (Url.url o))).

(** The names and values the loop of [buildUrl] appends, or how the
    first conversion that does not return ends. *)
Fixpoint stringify_all (es : list (string * Js.value))
    : Js.outcome (list (string * string)) :=
  match es with
  | [] => Js.Returns []
  | e :: rest =>
      Js.and_then (Js.USVString e.1) (fun name =>
      Js.and_then (Js.ToString e.2) (fun s =>
      Js.and_then (Js.USVString s) (fun v =>
      Js.and_then (stringify_all rest) (fun l =>
      Js.Returns ((name, v) :: l)))))
  end.

(** A pair of strings of scalar values. *)
Definition well_formed (p : string * string) : Prop :=
  Utf8.valid p.1 = true /\ Utf8.valid p.2 = true.

(** The URL object after the pairs of a list were appended in turn. *)
Definition append_all (l : list (string * string)) (o : Url.URL) : Url.URL :=
  foldl (fun o p => Url.append p.1 p.2 o) o l.




(** A record with another query. *)
Definition with_query (q : option string) (u : Url.URLRecord) : Url.URLRecord :=
  {| Url.scheme := Url.scheme u; Url.username := Url.username u;
     Url.password := Url.password u; Url.host := Url.host u; Url.port := Url.port u;
     Url.path := Url.path u; Url.query := q; Url.fragment := Url.fragment u |}.

(** The query [buildUrl] gives the URL: the one of the base URL when
    nothing is appended, else the serialization of the pairs the query of
    the base URL decodes to, followed by the pairs appended. *)
Definition built_query (u : Url.URLRecord) (l : list (string * string)) : option string :=
  match l with
  | [] => Url.query u
  | _ :: _ => Some (Form.serialize (Form.parse (default "" (Url.query u)) ++ l)%list)
  end.

(** What a public call does to the fields of the instance. *)
Definition effect (c : Handler.call) (o : Handler.RequestHandler) : Handler.RequestHandler :=
  match c with
  | Handler.Curl u => Handler.set_baseUrl u o
  | Handler.Cpath p => Handler.set_apiPath p o
  | Handler.Cparam p => Handler.set_apiParams p o
  | Handler.Cheader h => Handler.set_apiHeader h o
  | Handler.Cbody b => Handler.set_apiBody b o
  | Handler.CwithRequest r => Handler.set_request r o
  | Handler.Creset =>
      Handler.set_apiBody [] (Handler.set_apiHeader [] (Handler.set_apiParams []
        (Handler.set_apiPath "" (Handler.set_baseUrl "" o))))
  end.

Definition effects (cs : list Handler.call) (o : Handler.RequestHandler) : Handler.RequestHandler :=
  foldl (fun o c => effect c o) o cs.

(** The world after a computation, and its outcome. *)
Definition after {A} (m : Handler.M A) (w : Handler.world) : Handler.world := (m w).2.
Definition result {A} (m : Handler.M A) (w : Handler.world) : Js.outcome A := (m w).1.

(** The origin the tests use, and two sessions on it. *)
Definition origin : string := "https://conduit-api.bondaracademy.com".

Definition configured (cs : list Handler.call) : Handler.world :=
  after (this ← Handler.new ; Handler.chain cs this) Handler.empty_world.

(** The fields a method assigns to. *)
Inductive field :=
| FbaseUrl
| FapiPath
| FapiParams
| FapiHeader
| FapiBody
| Frequest.

Definition writes (c : Handler.call) : list field :=
  match c with
  | Handler.Curl _ => [FbaseUrl]
  | Handler.Cpath _ => [FapiPath]
  | Handler.Cparam _ => [FapiParams]
  | Handler.Cheader _ => [FapiHeader]
  | Handler.Cbody _ => [FapiBody]
  | Handler.CwithRequest _ => [Frequest]
  | Handler.Creset => [FbaseUrl; FapiPath; FapiParams; FapiHeader; FapiBody]
  end.

(** Contradictions from a hypothesis on [writes], by trying every field. *)
Ltac by_field H :=
  exfalso;
  first [ solve [ pose proof (H FbaseUrl); simpl in *; intuition discriminate ]
        | solve [ pose proof (H FapiPath); simpl in *; intuition discriminate ]
        | solve [ pose proof (H FapiParams); simpl in *; intuition discriminate ]
        | solve [ pose proof (H FapiHeader); simpl in *; intuition discriminate ]
        | solve [ pose proof (H FapiBody); simpl in *; intuition discriminate ]
        | solve [ pose proof (H Frequest); simpl in *; intuition discriminate ] ].

(** The value of a field, as a JavaScript value. *)
Definition field_value (f : field) (o : Handler.RequestHandler) : Js.value :=
  match f with
  | FbaseUrl => Js.String (Handler.baseUrl o)
  | FapiPath => Js.String (Handler.apiPath o)
  | FapiParams => Js.Object (Handler.apiParams o)
  | FapiHeader => Js.Object (Handler.apiHeader o)
  | FapiBody => Js.Object (Handler.apiBody o)
  | Frequest => Handler.request o
  end.

(** What a client can do to a world: make an instance, call a public
    method on a live one, or have its URL built. *)
Inductive step (w : Handler.world) : Handler.world -> Prop :=
| step_new : step w (after Handler.new w)
| step_invoke (c : Handler.call) (this : Handler.loc) :
    is_Some (Handler.heap w !! this) -> step w (after (Handler.invoke c this) w)
| step_buildUrl (this : Handler.loc) :
    is_Some (Handler.heap w !! this) -> step w (after (Handler.buildUrl this) w).

Definition reachable (w : Handler.world) : Prop := rtc step Handler.empty_world w.

(** * Properties of the host model *)

(** ** Strings *)

Lemma app_empty_r (s : string) : s ++ "" = s.
Proof. induction s; simpl; congruence. Qed.

Section StrLemmas.
Variable p : ascii -> bool.

Lemma forallb_app (a b : string) :
  Str.forallb p (a ++ b) = Str.forallb p a && Str.forallb p b.
Proof.
  induction a as [|c a IH]; simpl; [reflexivity|].
  rewrite IH. apply andb_assoc.
Qed.

Lemma forallb_weaken (q : ascii -> bool) (s : string) :
  (forall c, p c = true -> q c = true) ->
  Str.forallb p s = true -> Str.forallb q s = true.
Proof.
  intros Hpq. induction s as [|c s IH]; simpl; [reflexivity|].
  intros [Hc Hs]%andb_true_iff. rewrite (Hpq _ Hc). simpl. auto.
Qed.

Lemma forallb_map (f : ascii -> ascii) (s : string) :
  Str.forallb p (Str.map f s) = Str.forallb (fun c => p (f c)) s.
Proof. induction s as [|c s IH]; simpl; congruence. Qed.

(** Cutting skips a prefix without separator. *)
Lemma cut_app (a b : string) :
  Str.forallb (fun c => negb (p c)) a = true ->
  Str.cut p (a ++ b) = ((a ++ (Str.cut p b).1), (Str.cut p b).2).
Proof.
  induction a as [|c a IH]; simpl.
  - intros _. destruct (Str.cut p b); reflexivity.
  - intros [Hc Ha]%andb_true_iff. apply negb_true_iff in Hc. rewrite Hc.
    rewrite (IH Ha). reflexivity.
Qed.

Lemma cut_none (a : string) :
  Str.forallb (fun c => negb (p c)) a = true -> Str.cut p a = (a, None).
Proof.
  induction a as [|c a IH]; simpl; [reflexivity|].
  intros [Hc Ha]%andb_true_iff. apply negb_true_iff in Hc.
  rewrite Hc, (IH Ha). reflexivity.
Qed.

Lemma cut_at (a b : string) (c : ascii) :
  Str.forallb (fun c => negb (p c)) a = true -> p c = true ->
  Str.cut p (a ++ String c b) = (a, Some b).
Proof.
  intros Ha Hc. rewrite (cut_app _ _ Ha). simpl. rewrite Hc. simpl.
  rewrite app_empty_r. reflexivity.
Qed.

Lemma split_nonempty (s : string) : Str.split p s <> [].
Proof.
  induction s as [|c s IH]; simpl; [discriminate|].
  destruct (p c); [discriminate|]. destruct (Str.split p s); [contradiction|discriminate].
Qed.

Lemma split_none (a : string) :
  Str.forallb (fun c => negb (p c)) a = true -> Str.split p a = [a].
Proof.
  induction a as [|c a IH]; simpl; [reflexivity|].
  intros [Hc Ha]%andb_true_iff. apply negb_true_iff in Hc.
  rewrite Hc, (IH Ha). reflexivity.
Qed.

Lemma split_at (a b : string) (c : ascii) :
  Str.forallb (fun c => negb (p c)) a = true -> p c = true ->
  Str.split p (a ++ String c b) = a :: Str.split p b.
Proof.
  intros Ha Hc. induction a as [|d a IH]; simpl.
  - rewrite Hc. reflexivity.
  - simpl in Ha. apply andb_true_iff in Ha as [Hd Ha]. apply negb_true_iff in Hd.
    rewrite Hd, (IH Ha). reflexivity.
Qed.

End StrLemmas.

Lemma app_assoc_s (a b c : string) : (a ++ b) ++ c = a ++ (b ++ c).
Proof. induction a; simpl; congruence. Qed.

(** ** Percent-encoding *)

Lemma decode_encode_byte (c : ascii) (rest : string) :
  Pct.decode (Pct.encode_byte c rest) = String c (Pct.decode rest).
Proof. each_byte c; reflexivity. Qed.

Lemma one_of_forallb (q : ascii -> bool) (s : string) (c : ascii) :
  Chr.one_of s c = true -> Str.forallb q s = true -> q c = true.
Proof.
  unfold Chr.one_of. induction s as [|d s IH]; simpl; [discriminate|].
  intros H [Hd Hs]%andb_true_iff.
  destruct (Ascii.eqb_spec d c) as [->|]; [exact Hd|]. simpl in H. auto.
Qed.

Lemma hex_digit_upper (c : ascii) :
  Chr.one_of "0123456789ABCDEF" (Chr.hex_digit (Chr.code c / 16)) = true
  /\ Chr.one_of "0123456789ABCDEF" (Chr.hex_digit (Chr.code c mod 16)) = true.
Proof. each_byte c; vm_compute; split; reflexivity. Qed.

Lemma forallb_encode_byte (q : ascii -> bool) (c : ascii) (rest : string) :
  pct_alphabet q = true ->
  Str.forallb q (Pct.encode_byte c rest) = Str.forallb q rest.
Proof.
  unfold pct_alphabet. intros [Hp Hh]%andb_true_iff.
  destruct (hex_digit_upper c) as [Hhi Hlo].
  unfold Pct.encode_byte. simpl.
  rewrite Hp, (one_of_forallb q _ _ Hhi Hh), (one_of_forallb q _ _ Hlo Hh).
  reflexivity.
Qed.

Lemma forallb_encode (in_set q : ascii -> bool) (s : string) :
  pct_alphabet q = true ->
  (forall c, in_set c = false -> q c = true) ->
  Str.forallb q (Pct.encode in_set s) = true.
Proof.
  intros Hq Hset. induction s as [|c s IH]; simpl; [reflexivity|].
  destruct (in_set c) eqn:E.
  - rewrite forallb_encode_byte by assumption. exact IH.
  - simpl. rewrite (Hset _ E), IH. reflexivity.
Qed.

(** ** UTF-8 *)

Lemma valid_replacement (x : string) : Utf8.valid (Utf8.replacement x) = Utf8.valid x.
Proof. reflexivity. Qed.

Lemma second_3 (a b : ascii) :
  Chr.between 224 239 a = true ->
  Utf8.second a b
  = if (Chr.code a =? 224)%N then Chr.between 160 191 b
    else if (Chr.code a =? 237)%N then Chr.between 128 159 b
    else Utf8.cont b.
Proof.
  unfold Utf8.second, Chr.between. intros [H1 H2]%andb_true_iff.
  apply N.leb_le in H1, H2.
  destruct (N.eqb_spec (Chr.code a) 224); [reflexivity|].
  destruct (N.eqb_spec (Chr.code a) 237); [reflexivity|].
  destruct (N.eqb_spec (Chr.code a) 240); [lia|].
  destruct (N.eqb_spec (Chr.code a) 244); [lia|]. reflexivity.
Qed.

Lemma second_4 (a b : ascii) :
  Chr.between 224 239 a = false ->
  Utf8.second a b
  = if (Chr.code a =? 240)%N then Chr.between 144 191 b
    else if (Chr.code a =? 244)%N then Chr.between 128 143 b
    else Utf8.cont b.
Proof.
  unfold Utf8.second, Chr.between. intros H.
  destruct (N.eqb_spec (Chr.code a) 224) as [E|_]; [rewrite E in H; discriminate|].
  destruct (N.eqb_spec (Chr.code a) 237) as [E|_]; [rewrite E in H; discriminate|].
  reflexivity.
Qed.

(** What the decoder gives is well-formed. *)
Lemma valid_decode_le (n : nat) (s : string) :
  String.length s <= n -> Utf8.valid (Utf8.decode s) = true.
Proof.
  revert s. induction n as [n IH] using lt_wf_ind. intros s Hn.
  assert (IHs : forall t, String.length t < String.length s ->
                  Utf8.valid (Utf8.decode t) = true).
  { intros t Ht. apply (IH (String.length t)); lia. }
  clear IH Hn.
  destruct s as [|a r]; [reflexivity|].
  cbn [Utf8.decode].
  destruct (Chr.code a <=? 127)%N eqn:E1.
  { cbn [Utf8.valid]. rewrite E1. apply IHs. simpl. lia. }
  destruct (Chr.between 194 223 a) eqn:E2.
  { destruct r as [|b r1]; [reflexivity|].
    destruct (Utf8.cont b) eqn:Eb.
    - cbn [Utf8.valid]. rewrite E1, E2, Eb. apply IHs. simpl. lia.
    - rewrite valid_replacement. apply IHs. simpl. lia. }
  destruct (Chr.between 224 239 a) eqn:E3.
  { destruct r as [|b r1]; [reflexivity|].
    destruct (Utf8.second a b) eqn:Eb.
    - destruct r1 as [|c r2]; [reflexivity|].
      destruct (Utf8.cont c) eqn:Ec.
      + cbn [Utf8.valid]. rewrite E1, E2, E3, <- (second_3 a b E3), Eb, Ec.
        apply IHs. simpl. lia.
      + rewrite valid_replacement. apply IHs. simpl. lia.
    - rewrite valid_replacement. apply IHs. simpl. lia. }
  destruct (Chr.between 240 244 a) eqn:E4.
  { destruct r as [|b r1]; [reflexivity|].
    destruct (Utf8.second a b) eqn:Eb.
    - destruct r1 as [|c r2]; [reflexivity|].
      destruct (Utf8.cont c) eqn:Ec.
      + destruct r2 as [|d r3]; [reflexivity|].
        destruct (Utf8.cont d) eqn:Ed.
        * cbn [Utf8.valid].
          rewrite E1, E2, E3, E4, <- (second_4 a b E3), Eb, Ec, Ed.
          apply IHs. simpl. lia.
        * rewrite valid_replacement. apply IHs. simpl. lia.
      + rewrite valid_replacement. apply IHs. simpl. lia.
    - rewrite valid_replacement. apply IHs. simpl. lia. }
  rewrite valid_replacement. apply IHs. simpl. lia.
Qed.

Lemma valid_decode (s : string) : Utf8.valid (Utf8.decode s) = true.
Proof. apply (valid_decode_le (String.length s)). reflexivity. Qed.

(** The decoder leaves a well-formed string as it is. *)
Lemma decode_valid_le (n : nat) (s : string) :
  String.length s <= n -> Utf8.valid s = true -> Utf8.decode s = s.
Proof.
  revert s. induction n as [n IH] using lt_wf_ind. intros s Hn.
  assert (IHs : forall t, String.length t < String.length s ->
                  Utf8.valid t = true -> Utf8.decode t = t).
  { intros t Ht. apply (IH (String.length t)); lia. }
  clear IH Hn.
  destruct s as [|a r]; [reflexivity|].
  cbn [Utf8.decode Utf8.valid].
  destruct (Chr.code a <=? 127)%N eqn:E1.
  { intros H. rewrite (IHs r); [reflexivity|simpl; lia|exact H]. }
  destruct r as [|b r1]; [discriminate|].
  destruct (Chr.between 194 223 a) eqn:E2.
  { intros [Hb H]%andb_true_iff. rewrite Hb, (IHs r1); [reflexivity|simpl; lia|exact H]. }
  destruct r1 as [|c r2]; [discriminate|].
  destruct (Chr.between 224 239 a) eqn:E3.
  { rewrite <- (second_3 a b E3).
    intros [[Hb Hc]%andb_true_iff H]%andb_true_iff.
    rewrite Hb, Hc, (IHs r2); [reflexivity|simpl; lia|exact H]. }
  destruct r2 as [|d r3]; [discriminate|].
  rewrite <- (second_4 a b E3).
  intros [[[[Ha Hb]%andb_true_iff Hc]%andb_true_iff Hd]%andb_true_iff H]%andb_true_iff.
  rewrite Ha, Hb, Hc, Hd, (IHs r3); [reflexivity|simpl; lia|exact H].
Qed.

Lemma decode_valid (s : string) : Utf8.valid s = true -> Utf8.decode s = s.
Proof. apply (decode_valid_le (String.length s)). reflexivity. Qed.

Lemma decode_decode (s : string) : Utf8.decode (Utf8.decode s) = Utf8.decode s.
Proof. apply decode_valid, valid_decode. Qed.


(** ** The urlencoded format *)

Lemma form_char_unreserved (c : ascii) :
  Pct.urlencoded_set c = false -> form_char c = true.
Proof. each_byte c; vm_compute; congruence. Qed.

Lemma forallb_form_encode (s : string) : Str.forallb form_char (Form.encode s) = true.
Proof.
  induction s as [|c s IH]; simpl; [reflexivity|].
  destruct (Ascii.eqb c " "); [exact IH|].
  destruct (Pct.urlencoded_set c) eqn:E.
  - rewrite forallb_encode_byte by reflexivity. exact IH.
  - simpl. rewrite (form_char_unreserved _ E), IH. reflexivity.
Qed.

Lemma form_decode_encode_step (c : ascii) (r : string) :
  Form.decode (Form.encode (String c r)) = String c (Form.decode (Form.encode r)).
Proof. unfold Form.decode. each_byte c; reflexivity. Qed.

(** Decoding undoes encoding, on every byte string. *)
Lemma form_decode_encode (s : string) : Form.decode (Form.encode s) = s.
Proof.
  induction s as [|c s IH]; [reflexivity|].
  rewrite form_decode_encode_step, IH. reflexivity.
Qed.

Lemma form_encode_no (d : ascii) (s : string) :
  form_char d = false ->
  Str.forallb (fun c => negb (Str.char d c)) (Form.encode s) = true.
Proof.
  intros Hd. apply (forallb_weaken form_char); [|apply forallb_form_encode].
  intros c Hc. unfold Str.char. destruct (Ascii.eqb_spec d c); [congruence|reflexivity].
Qed.

(** What the urlencoded parser reads is well formed. *)
Lemma parse_sequence_well_formed (b : string) : well_formed (Form.parse_sequence b).
Proof.
  unfold Form.parse_sequence. destruct (Str.cut _ b) as [name value].
  split; apply valid_decode.
Qed.

Lemma form_parse_well_formed (q : string) : Forall well_formed (Form.parse q).
Proof.
  unfold Form.parse. apply Forall_fmap, Forall_forall.
  intros b _. apply parse_sequence_well_formed.
Qed.

Lemma parse_sequence_tuple (t : string * string) :
  well_formed t -> Form.parse_sequence (Form.serialize_tuple t) = t.
Proof.
  destruct t as [k v]. intros [Hk Hv].
  unfold Form.parse_sequence, Form.serialize_tuple. simpl in *.
  change (Form.encode k ++ String "=" (Form.encode v))
    with (Form.encode k ++ String "="%char (Form.encode v)).
  rewrite (cut_at _ _ _ "="%char) by (try apply form_encode_no; reflexivity).
  simpl. rewrite !form_decode_encode, !decode_valid by assumption. reflexivity.
Qed.

Lemma serialize_tuple_no_amp (t : string * string) :
  Str.forallb (fun c => negb (Str.char "&" c)) (Form.serialize_tuple t) = true.
Proof.
  unfold Form.serialize_tuple.
  change ("=" ++ Form.encode t.2) with (String "="%char (Form.encode t.2)).
  rewrite forallb_app, form_encode_no by reflexivity.
  change (Str.forallb ?q (String ?c ?r)) with (q c && Str.forallb q r).
  rewrite form_encode_no by reflexivity. reflexivity.
Qed.

Lemma serialize_tuple_nonempty (t : string * string) :
  String.eqb (Form.serialize_tuple t) "" = false.
Proof.
  unfold Form.serialize_tuple. destruct (Form.encode t.1); reflexivity.
Qed.

Lemma form_parse_cons (t : string * string) (rest : string) :
  well_formed t ->
  Form.parse (Form.serialize_tuple t ++ String "&" rest) = t :: Form.parse rest.
Proof.
  intros Ht. unfold Form.parse.
  rewrite (split_at _ _ _ "&"%char) by (try apply serialize_tuple_no_amp; reflexivity).
  simpl. rewrite serialize_tuple_nonempty. simpl.
  rewrite parse_sequence_tuple by exact Ht. reflexivity.
Qed.

Lemma form_parse_single (t : string * string) :
  well_formed t -> Form.parse (Form.serialize_tuple t) = [t].
Proof.
  intros Ht. unfold Form.parse. rewrite split_none by apply serialize_tuple_no_amp.
  simpl. rewrite serialize_tuple_nonempty. simpl.
  rewrite parse_sequence_tuple by exact Ht. reflexivity.
Qed.

(** The urlencoded parser inverts the urlencoded serializer, on strings
    of scalar values. *)
Lemma form_parse_serialize (l : list (string * string)) :
  Forall well_formed l -> Form.parse (Form.serialize l) = l.
Proof.
  induction l as [|t [|t' l] IH]; intros Hl; [reflexivity| |].
  - apply form_parse_single. inversion Hl; assumption.
  - change (Form.serialize (t :: t' :: l))
      with (Form.serialize_tuple t ++ String "&"%char (Form.serialize (t' :: l))).
    inversion Hl; subst. rewrite form_parse_cons, IH by assumption. reflexivity.
Qed.

Lemma form_serialize_snoc_nonempty (l : list (string * string)) (t : string * string) :
  String.eqb (Form.serialize (l ++ [t])%list) "" = false.
Proof.
  destruct l as [|t' l]; simpl.
  - unfold Form.serialize_tuple. destruct (Form.encode t.1); reflexivity.
  - destruct (l ++ [t])%list; unfold Form.serialize_tuple;
      destruct (Form.encode t'.1); reflexivity.
Qed.

Lemma form_serialize_nonempty (t : string * string) (l : list (string * string)) :
  String.eqb (Form.serialize (t :: l)) "" = false.
Proof.
  destruct l; simpl; unfold Form.serialize_tuple; destruct (Form.encode t.1); reflexivity.
Qed.

Lemma forallb_form_serialize (l : list (string * string)) :
  Str.forallb (fun c => form_char c || Chr.one_of "=&" c) (Form.serialize l) = true.
Proof.
  assert (Ht : forall t, Str.forallb (fun c => form_char c || Chr.one_of "=&" c)
                           (Form.serialize_tuple t) = true).
  { intros t. unfold Form.serialize_tuple. rewrite forallb_app. simpl.
    rewrite !(forallb_weaken form_char _ _ (fun c H => orb_true_intro _ _ (or_introl H))
                (forallb_form_encode _)). reflexivity. }
  induction l as [|t [|t' l] IH]; [reflexivity|apply Ht|].
  change (Form.serialize (t :: t' :: l))
    with (Form.serialize_tuple t ++ String "&"%char (Form.serialize (t' :: l))).
  rewrite forallb_app, Ht. simpl. exact IH.
Qed.

(** ** The URL parser and serializer *)

Lemma forallb_digits_uint (d : Decimal.uint) :
  Str.forallb Chr.is_digit (NilEmpty.string_of_uint d) = true.
Proof. induction d; simpl; auto. Qed.

Lemma forallb_decimal (n : N) : Str.forallb Chr.is_digit (Url.decimal n) = true.
Proof.
  unfold Url.decimal, NilZero.string_of_uint.
  destruct (N.to_uint n); try reflexivity; apply (forallb_digits_uint (_ _)).
Qed.

Lemma Forall_removelast {A} (P : A -> Prop) (l : list A) :
  Forall P l -> Forall P (removelast l).
Proof.
  induction 1 as [|x l Hx Hl IH]; simpl; [constructor|].
  destruct l; [constructor|]. constructor; assumption.
Qed.

Lemma forallb_both (p q r : ascii -> bool) (s : string) :
  (forall c, p c = true -> q c = true -> r c = true) ->
  Str.forallb p s = true -> Str.forallb q s = true -> Str.forallb r s = true.
Proof.
  intros H. induction s as [|c s IH]; simpl; [reflexivity|].
  intros [Hp Hps]%andb_true_iff [Hq Hqs]%andb_true_iff.
  rewrite (H _ Hp Hq). simpl. auto.
Qed.

(** What the parser returns, component by component. *)
Lemma parse_inv (input : string) (u : Url.URLRecord) :
  Url.parse input = Url.Parsed u ->
  exists sch userinfo h h' prt tail,
    is_Some (Url.default_port sch)
    /\ Url.parse_host h = Url.Host h'
    /\ u = {| Url.scheme := sch;
              Url.username := (Url.parse_userinfo userinfo).1;
              Url.password := (Url.parse_userinfo userinfo).2;
              Url.host := Some h';
              Url.port := prt;
              Url.path := Url.Segments (Url.parse_path tail);
              Url.query := Pct.encode Pct.special_query_set
                             <$> Url.href_query (Url.preprocess input);
              Url.fragment := Pct.encode Pct.fragment_set
                                <$> (Str.cut (Str.char "#") (Url.preprocess input)).2 |}.
Proof.
  unfold Url.parse, Url.href_query.
  destruct (Str.cut _ (Url.preprocess input)) as [s f]. simpl.
  destruct (Str.cut _ s) as [s' q]. simpl.
  destruct (Url.split_scheme s') as [[sch rest]|]; [|discriminate].
  destruct (decide _) as [Hsch|]; [|discriminate].
  unfold Url.parse_special.
  destruct (Str.break _ _) as [authority tail].
  destruct (Url.split_authority authority) as [userinfo hostport].
  destruct (Str.forallb _ hostport); [|discriminate].
  destruct (Str.cut _ hostport) as [h p].
  destruct (String.eqb h ""); [discriminate|].
  destruct (Url.parse_host h) as [h'| |] eqn:Hh; try discriminate.
  destruct (Url.parse_port sch p) as [prt|]; [|discriminate].
  destruct (Str.forallb _ tail); [|discriminate].
  intros [= <-]. exists sch, userinfo, h, h', prt, tail. auto.
Qed.

(** The characters of the components that stand before the query. *)
Section Front.
Variable q : ascii -> bool.
Hypothesis q_pct : pct_alphabet q = true.
Hypothesis q_digit : forall c, Chr.is_digit c = true -> q c = true.
Hypothesis q_dot : q "."%char = true.
Hypothesis q_domain :
  forall c, Url.is_ascii c = true ->
            negb (Url.forbidden_domain_code_point (Chr.lower c)) = true ->
            q (Chr.lower c) = true.
Hypothesis q_path : forall c, Pct.path_set c = false -> q c = true.
Hypothesis q_userinfo : forall c, Pct.userinfo_set c = false -> q c = true.
Hypothesis q_scheme : Forall (fun e => Str.forallb q e.1 = true) Url.special_schemes.

Lemma scheme_chars (sch : string) :
  is_Some (Url.default_port sch) -> Str.forallb q sch = true.
Proof.
  unfold Url.default_port. intros [n Hn].
  destruct (find _ _) as [e|] eqn:E; [|discriminate].
  apply find_some in E as [Hin <-%String.eqb_eq].
  rewrite Forall_forall in q_scheme. apply q_scheme, list_elem_of_In, Hin.
Qed.

Lemma userinfo_chars (userinfo : option string) :
  Str.forallb q (Url.parse_userinfo userinfo).1 = true
  /\ Str.forallb q (Url.parse_userinfo userinfo).2 = true.
Proof.
  unfold Url.parse_userinfo. destruct userinfo as [i|]; [|split; reflexivity].
  destruct (Str.cut _ i) as [a b]. simpl.
  split; apply forallb_encode; assumption.
Qed.

Lemma decimal_dot_chars (n : N) (rest : string) :
  Str.forallb q (Url.decimal n ++ "." ++ rest) = Str.forallb q rest.
Proof.
  rewrite forallb_app, (forallb_weaken _ _ _ q_digit (forallb_decimal n)).
  simpl. rewrite q_dot. reflexivity.
Qed.

Lemma ipv4_chars (n : N) : Str.forallb q (Url.serialize_ipv4 n) = true.
Proof.
  unfold Url.serialize_ipv4. rewrite !decimal_dot_chars.
  apply (forallb_weaken _ _ _ q_digit), forallb_decimal.
Qed.

Lemma host_chars (h h' : string) :
  Url.parse_host h = Url.Host h' -> Str.forallb q h' = true.
Proof.
  unfold Url.parse_host.
  destruct (Str.forallb Url.is_ascii (Pct.decode h)) eqn:Ha; simpl; [|discriminate].
  destruct (existsb _ _); [discriminate|].
  destruct (Str.forallb _ (Str.map Chr.lower (Pct.decode h))) eqn:Hf; simpl; [|discriminate].
  destruct (Url.ends_in_number _).
  - destruct (Url.parse_ipv4 _); [|discriminate]. intros [= <-]. apply ipv4_chars.
  - intros [= <-]. rewrite forallb_map in Hf |- *.
    exact (forallb_both _ _ _ _ q_domain Ha Hf).
Qed.

Lemma path_state_chars (segs acc : list string) :
  Forall (fun seg => Str.forallb q seg = true) acc ->
  Forall (fun seg => Str.forallb q seg = true) (Url.path_state segs acc).
Proof.
  revert acc. induction segs as [|seg rest IH]; intros acc Hacc; simpl; [exact Hacc|].
  apply IH.
  assert (Hempty : Forall (fun seg => Str.forallb q seg = true) [""])
    by (constructor; [reflexivity|constructor]).
  repeat match goal with
         | |- context [if ?b then _ else _] => destruct b
         end;
    repeat first [ apply Forall_app_2 | apply Forall_removelast | assumption ].
  constructor; [|constructor].
  apply forallb_encode; assumption.
Qed.

Lemma segments_chars (l : list string) :
  Forall (fun seg => Str.forallb q seg = true) l ->
  q "/"%char = true ->
  Str.forallb q (Url.serialize_segments l) = true.
Proof.
  intros H Hs. induction H as [|seg p Hseg Hp IH]; [reflexivity|].
  simpl. rewrite Hs, forallb_app, Hseg. exact IH.
Qed.

End Front.

Lemma plain_digit (c : ascii) : Chr.is_digit c = true -> plain c = true.
Proof. each_byte c; vm_compute; congruence. Qed.

Lemma plain_domain (c : ascii) :
  Url.is_ascii c = true ->
  negb (Url.forbidden_domain_code_point (Chr.lower c)) = true ->
  plain (Chr.lower c) = true.
Proof. each_byte c; vm_compute; congruence. Qed.

Lemma plain_path (c : ascii) : Pct.path_set c = false -> plain c = true.
Proof. each_byte c; vm_compute; congruence. Qed.

Lemma plain_userinfo (c : ascii) : Pct.userinfo_set c = false -> plain c = true.
Proof. each_byte c; vm_compute; congruence. Qed.

Lemma plain_schemes : Forall (fun e => Str.forallb plain e.1 = true) Url.special_schemes.
Proof. repeat constructor. Qed.

Lemma special_query_no_hash (c : ascii) :
  Pct.special_query_set c = false -> no_hash c = true.
Proof. each_byte c; vm_compute; congruence. Qed.

Lemma form_no_hash (c : ascii) :
  form_char c || Chr.one_of "=&" c = true -> no_hash c = true.
Proof. each_byte c; vm_compute; congruence. Qed.

(** Every record the parser returns is well formed. *)
Lemma parse_wf : parses_well Url.parse.
Proof.
  intros input u (sch & userinfo & h & h' & prt & tail & Hsch & Hh & ->)%parse_inv.
  split; simpl.
  - apply (scheme_chars plain plain_schemes), Hsch.
  - apply (userinfo_chars plain eq_refl plain_userinfo).
  - apply (userinfo_chars plain eq_refl plain_userinfo).
  - intros ? [= <-].
    apply (host_chars plain plain_digit eq_refl plain_domain _ _ Hh).
  - apply (path_state_chars plain eq_refl plain_path). constructor.
  - intros x. destruct (Url.href_query _); intros [= <-].
    apply forallb_encode; [reflexivity|apply special_query_no_hash].
Qed.

Lemma append_wf (name value : string) (o : Url.URL) :
  wf_url (Url.url o) -> wf_url (Url.url (Url.append name value o)).
Proof.
  intros [Hs Hu Hp Hh Hpa Hq]. split; simpl; try assumption.
  intros q. destruct (String.eqb _ ""); intros [= <-].
  apply (forallb_weaken _ _ _ form_no_hash), forallb_form_serialize.
Qed.

Lemma plain_serialize_front (u : Url.URLRecord) :
  wf_url u ->
  Str.forallb plain (Url.scheme u ++ ":" ++ Url.serialize_authority u
                     ++ Url.serialize_path (Url.path u)) = true.
Proof.
  intros [Hs Hu Hp Hh Hpa Hq].
  rewrite forallb_app, Hs. cbn [andb].
  change (Str.forallb plain (":" ++ ?x)) with (Str.forallb plain x).
  rewrite forallb_app. apply andb_true_iff. split.
  - unfold Url.serialize_authority. destruct (Url.host u) as [h|].
    + change (Str.forallb plain ("//" ++ ?x)) with (Str.forallb plain x).
      rewrite !forallb_app, (Hh _ eq_refl). cbn [andb].
      apply andb_true_iff. split.
      * unfold Url.serialize_credentials.
        destruct (_ && _); [reflexivity|].
        rewrite !forallb_app, Hu. cbn [andb].
        destruct (String.eqb (Url.password u) ""); [reflexivity|].
        change (Str.forallb plain (":" ++ ?x)) with (Str.forallb plain x).
        rewrite Hp. reflexivity.
      * destruct (Url.port u) as [n|]; simpl; [|reflexivity].
        apply (forallb_weaken _ _ _ plain_digit), forallb_decimal.
    + destruct (Url.path u) as [|[|[|] [|]]]; reflexivity.
  - destruct (Url.path u); simpl; [exact Hpa|].
    apply segments_chars; [exact Hpa|reflexivity].
Qed.

(** The query of a well-formed record is read back from its href. *)
Lemma href_query_serialize (u : Url.URLRecord) :
  wf_url u -> Url.href_query (Url.serialize u) = Url.query u.
Proof.
  intros Hwf. pose proof (plain_serialize_front u Hwf) as Hpre.
  destruct Hwf as [_ _ _ _ _ Hq]. unfold Url.href_query, Url.serialize.
  set (pre := Url.scheme u ++ ":" ++ Url.serialize_authority u
              ++ Url.serialize_path (Url.path u)) in *.
  assert (Hq' : Str.forallb no_hash (Url.opt_prefix "?" (Url.query u)) = true).
  { destruct (Url.query u) as [q|]; simpl; [apply Hq|]; reflexivity. }
  assert (Heq : Url.scheme u ++ ":" ++ Url.serialize_authority u
                ++ Url.serialize_path (Url.path u)
                ++ Url.opt_prefix "?" (Url.query u)
                ++ Url.opt_prefix "#" (Url.fragment u)
                = (pre ++ Url.opt_prefix "?" (Url.query u))
                  ++ Url.opt_prefix "#" (Url.fragment u)).
  { subst pre. rewrite !app_assoc_s. reflexivity. }
  rewrite Heq. clear Heq.
  assert (Hcut : (Str.cut (Str.char "#")
                   ((pre ++ Url.opt_prefix "?" (Url.query u))
                    ++ Url.opt_prefix "#" (Url.fragment u))).1
                 = pre ++ Url.opt_prefix "?" (Url.query u)).
  { rewrite cut_app.
    - destruct (Url.fragment u); simpl; apply app_empty_r.
    - rewrite forallb_app. apply andb_true_iff. split; [|exact Hq'].
      revert Hpre. apply forallb_weaken. intros c. each_byte c; vm_compute; congruence. }
  rewrite Hcut. rewrite cut_app.
  - destruct (Url.query u); reflexivity.
  - revert Hpre. apply forallb_weaken. intros c. each_byte c; vm_compute; congruence.
Qed.

(** ** Percent-encoding and the urlencoded parser

    Percent-encoding a query with a set that holds none of "%", "+", "&",
    "=" and no hexadecimal digit does not change the pairs the urlencoded
    parser reads. *)

Lemma decode_pct (x : string) :
  Pct.decode (String "%" x)
  = match x with
    | String h (String l x') =>
        match Chr.hex_value h, Chr.hex_value l with
        | Some a, Some b => String (ascii_of_N (16 * a + b)) (Pct.decode x')
        | _, _ => String "%" (Pct.decode x)
        end
    | _ => String "%" (Pct.decode x)
    end.
Proof. reflexivity. Qed.

Lemma decode_other (c : ascii) (x : string) :
  Ascii.eqb c "%" = false -> Pct.decode (String c x) = String c (Pct.decode x).
Proof. intros H. simpl. rewrite H. reflexivity. Qed.

Lemma form_decode_encode_byte (c : ascii) (x : string) :
  Pct.decode (Str.map Form.plus_to_space (Pct.encode_byte c x))
  = String c (Pct.decode (Str.map Form.plus_to_space x)).
Proof. each_byte c; reflexivity. Qed.

Lemma encode_byte_shape (c : ascii) (x : string) :
  exists h l, Pct.encode_byte c x = String "%" (String h (String l x))
              /\ Chr.one_of "0123456789ABCDEF" h = true
              /\ Chr.one_of "0123456789ABCDEF" l = true.
Proof.
  destruct (hex_digit_upper c) as [Hh Hl].
  eexists _, _. split; [reflexivity|]. split; assumption.
Qed.

Section QuerySet.
Variable S : ascii -> bool.
Hypothesis S_plain :
  forall c, S c = true ->
    Form.plus_to_space c = c /\ Ascii.eqb c "%" = false /\ Chr.hex_value c = None.

Lemma plus_to_space_pct (c : ascii) :
  Ascii.eqb (Form.plus_to_space c) "%" = Ascii.eqb c "%".
Proof. each_byte c; reflexivity. Qed.

Lemma form_decode_encode_le (n : nat) (x : string) :
  String.length x <= n ->
  Form.decode (Pct.encode S x) = Form.decode x.
Proof.
  unfold Form.decode. revert x.
  induction n as [n IH] using lt_wf_ind. intros x Hn.
  destruct x as [|c r]; [reflexivity|].
  assert (IHr : forall y, String.length y <= String.length r ->
                  Pct.decode (Str.map Form.plus_to_space (Pct.encode S y))
                  = Pct.decode (Str.map Form.plus_to_space y)).
  { intros y Hy. apply (IH (String.length r)); [simpl in Hn; lia|exact Hy]. }
  clear IH Hn.
  cbn [Pct.encode]. destruct (S c) eqn:Ec.
  - destruct (S_plain c Ec) as (Hp & Hpc & _).
    rewrite form_decode_encode_byte, (IHr r) by lia.
    cbn [Str.map]. rewrite Hp, (decode_other _ _ Hpc). reflexivity.
  - cbn [Str.map].
    destruct (Ascii.eqb (Form.plus_to_space c) "%") eqn:Ep.
    2:{ rewrite !(decode_other _ _ Ep), (IHr r) by lia. reflexivity. }
    apply Ascii.eqb_eq in Ep. rewrite Ep, !decode_pct.
    rewrite (IHr r (Nat.le_refl _)).
    generalize (Pct.decode (Str.map Form.plus_to_space r)). intros fallback.
    destruct r as [|d r1]; [reflexivity|].
    cbn [Pct.encode]. destruct (S d) eqn:Ed.
    + destruct (S_plain d Ed) as (Hp & _ & Hhex).
      destruct (encode_byte_shape d (Pct.encode S r1)) as (h & l & -> & _ & _).
      cbn [Str.map]. rewrite Hp, Hhex.
      change (Chr.hex_value (Form.plus_to_space "%")) with (@None N).
      destruct (Str.map Form.plus_to_space r1); reflexivity.
    + cbn [Str.map]. destruct r1 as [|e r2]; [reflexivity|].
      cbn [Pct.encode]. destruct (S e) eqn:Ee.
      * destruct (S_plain e Ee) as (Hp & _ & Hhex).
        destruct (encode_byte_shape e (Pct.encode S r2)) as (h & l & -> & _ & _).
        cbn [Str.map]. rewrite Hp, Hhex.
        change (Chr.hex_value (Form.plus_to_space "%")) with (@None N).
        destruct (Chr.hex_value (Form.plus_to_space d)); reflexivity.
      * cbn [Str.map]. rewrite (IHr r2) by (simpl; lia). reflexivity.
Qed.

Lemma form_decode_encode_set (x : string) :
  Form.decode (Pct.encode S x) = Form.decode x.
Proof. apply (form_decode_encode_le (String.length x)). reflexivity. Qed.

(** Cutting and splitting at a separator outside the set go through the
    encoding. *)
Variable p : ascii -> bool.
Hypothesis p_outside : forall c, p c = true -> S c = false.
Hypothesis p_pct : p "%"%char = false.
Hypothesis p_hex : Str.forallb (fun c => negb (p c)) "0123456789ABCDEF" = true.

Lemma cut_encode (s : string) :
  Str.cut p (Pct.encode S s)
  = (Pct.encode S (Str.cut p s).1, Pct.encode S <$> (Str.cut p s).2).
Proof.
  induction s as [|c s IH]; [reflexivity|].
  cbn [Pct.encode Str.cut]. destruct (p c) eqn:Ep.
  - rewrite (p_outside _ Ep). cbn [Str.cut]. rewrite Ep. reflexivity.
  - destruct (S c) eqn:Ec.
    + unfold Pct.encode_byte. cbn [Str.cut]. rewrite p_pct.
      destruct (hex_digit_upper c) as [Hh Hl].
      rewrite (proj1 (negb_true_iff _) (one_of_forallb _ _ _ Hh p_hex)).
      rewrite (proj1 (negb_true_iff _) (one_of_forallb _ _ _ Hl p_hex)).
      rewrite IH. destruct (Str.cut p s) as [x y].
      cbn [fst snd Pct.encode]. rewrite Ec. reflexivity.
    + cbn [Str.cut]. rewrite Ep, IH. destruct (Str.cut p s) as [x y].
      cbn [fst snd Pct.encode]. rewrite Ec. reflexivity.
Qed.

Lemma split_encode (s : string) :
  Str.split p (Pct.encode S s) = Pct.encode S <$> Str.split p s.
Proof.
  induction s as [|c s IH]; [reflexivity|].
  cbn [Pct.encode Str.split]. destruct (p c) eqn:Ep.
  - rewrite (p_outside _ Ep). cbn [Str.split]. rewrite Ep, IH. reflexivity.
  - pose proof (split_nonempty p s) as Hne.
    destruct (S c) eqn:Ec.
    + unfold Pct.encode_byte. cbn [Str.split]. rewrite p_pct.
      destruct (hex_digit_upper c) as [Hh Hl].
      rewrite (proj1 (negb_true_iff _) (one_of_forallb _ _ _ Hh p_hex)).
      rewrite (proj1 (negb_true_iff _) (one_of_forallb _ _ _ Hl p_hex)).
      rewrite IH. destruct (Str.split p s) as [|x xs]; [contradiction|].
      cbn [fmap list_fmap Pct.encode]. rewrite Ec. reflexivity.
    + cbn [Str.split]. rewrite Ep, IH.
      destruct (Str.split p s) as [|x xs]; [contradiction|].
      cbn [fmap list_fmap Pct.encode]. rewrite Ec. reflexivity.
Qed.

End QuerySet.

Lemma encode_empty (S : ascii -> bool) (x : string) :
  String.eqb (Pct.encode S x) "" = String.eqb x "".
Proof. destruct x as [|c x]; [reflexivity|]. simpl. destruct (S c); reflexivity. Qed.

Lemma special_query_set_plain (c : ascii) :
  Pct.special_query_set c = true ->
  Form.plus_to_space c = c /\ Ascii.eqb c "%" = false /\ Chr.hex_value c = None.
Proof. each_byte c; vm_compute; intuition congruence. Qed.

Lemma special_query_set_outside (d : ascii) (Hd : Chr.one_of "&=" d = true) (c : ascii) :
  Str.char d c = true -> Pct.special_query_set c = false.
Proof.
  unfold Str.char. intros ->%Ascii.eqb_eq. revert Hd.
  each_byte c; vm_compute; congruence.
Qed.

Lemma parse_sequence_encode (b : string) :
  Form.parse_sequence (Pct.encode Pct.special_query_set b) = Form.parse_sequence b.
Proof.
  unfold Form.parse_sequence.
  rewrite (cut_encode Pct.special_query_set (Str.char "=")
             (special_query_set_outside "=" eq_refl) eq_refl eq_refl).
  destruct (Str.cut (Str.char "=") b) as [name value]. simpl.
  rewrite (form_decode_encode_set _ special_query_set_plain). f_equal.
  destruct value as [v|]; simpl; [|reflexivity].
  rewrite (form_decode_encode_set _ special_query_set_plain). reflexivity.
Qed.

(** The pairs of a query are those of its special-query percent-encoding. *)
Lemma form_parse_encode (q : string) :
  Form.parse (Pct.encode Pct.special_query_set q) = Form.parse q.
Proof.
  unfold Form.parse.
  rewrite (split_encode Pct.special_query_set (Str.char "&")
             (special_query_set_outside "&" eq_refl) eq_refl eq_refl).
  induction (Str.split (Str.char "&") q) as [|b l IH]; [reflexivity|].
  cbn [fmap list_fmap List.filter]. rewrite encode_empty.
  destruct (negb (String.eqb b "")); cbn [fmap list_fmap].
  - rewrite parse_sequence_encode. f_equal. exact IH.
  - exact IH.
Qed.

(** The pairs of the query of a parsed record are those of the query of the
    input. *)
Lemma parse_keeps_query : keeps_query Url.parse.
Proof.
  intros input u (sch & userinfo & h & h' & prt & tail & _ & _ & ->)%parse_inv.
  unfold Url.href_pairs. simpl.
  destruct (Url.href_query (Url.preprocess input)) as [q|]; simpl; [|reflexivity].
  apply form_parse_encode.
Qed.

(** ** The query object *)

Lemma of_record_synced (u : Url.URLRecord) : synced (Url.of_record u).
Proof. reflexivity. Qed.

Lemma of_record_well_formed (u : Url.URLRecord) :
  Forall well_formed (Url.searchParams (Url.of_record u)).
Proof. apply form_parse_well_formed. Qed.

Lemma append_synced (name value : string) (o : Url.URL) :
  Forall well_formed (Url.searchParams o) -> well_formed (name, value) ->
  synced (Url.append name value o).
Proof.
  intros Ho Hp. unfold synced. simpl.
  rewrite form_serialize_snoc_nonempty. simpl.
  symmetry. apply form_parse_serialize, Forall_app. split; [exact Ho|].
  constructor; [exact Hp|constructor].
Qed.

Lemma append_all_snoc (l : list (string * string)) (p : string * string) (o : Url.URL) :
  append_all (l ++ [p])%list o = Url.append p.1 p.2 (append_all l o).
Proof. unfold append_all. rewrite foldl_snoc. reflexivity. Qed.

Lemma with_query_same (u : Url.URLRecord) : with_query (Url.query u) u = u.
Proof. destruct u; reflexivity. Qed.

Section AppendAll.
Variable o : Url.URL.

Lemma append_all_searchParams (l : list (string * string)) :
  Url.searchParams (append_all l o) = (Url.searchParams o ++ l)%list.
Proof.
  induction l as [|p l IH] using rev_ind; simpl.
  - symmetry. apply app_nil_r.
  - rewrite append_all_snoc, app_assoc, <- IH. destruct p. reflexivity.
Qed.

Lemma append_all_synced (l : list (string * string)) :
  Forall well_formed (Url.searchParams o) -> Forall well_formed l ->
  synced o -> synced (append_all l o).
Proof.
  intros Hwo Hl Ho. destruct l as [|p l _] using rev_ind; [exact Ho|].
  apply Forall_app in Hl as [Hl Hp]. inversion Hp; subst.
  rewrite append_all_snoc. apply append_synced.
  - rewrite append_all_searchParams. apply Forall_app. split; assumption.
  - destruct p; assumption.
Qed.

Lemma append_all_wf (l : list (string * string)) :
  wf_url (Url.url o) -> wf_url (Url.url (append_all l o)).
Proof.
  intros Ho. induction l as [|p l IH] using rev_ind; [exact Ho|].
  rewrite append_all_snoc. apply append_wf, IH.
Qed.

(** The record of the URL object after the loop: only its query moved. *)
Lemma append_all_url (l : list (string * string)) :
  Url.url (append_all l o)
  = with_query
      match l with
      | [] => Url.query (Url.url o)
      | _ :: _ => Some (Form.serialize (Url.searchParams o ++ l)%list)
      end (Url.url o).
Proof.
  induction l as [|p l IH] using rev_ind.
  - symmetry. apply with_query_same.
  - rewrite append_all_snoc. unfold Url.append. simpl.
    rewrite append_all_searchParams, IH. unfold with_query. simpl.
    rewrite <- app_assoc. replace (p.1, p.2) with p by (destruct p; reflexivity).
    rewrite app_assoc, form_serialize_snoc_nonempty, <- app_assoc.
    destruct l; reflexivity.
Qed.

(** The pairs read off the href of the URL object are those of its query
    object. *)
Lemma href_pairs_toString :
  wf_url (Url.url o) -> synced o ->
  Url.href_pairs (Url.toString o) = Url.searchParams o.
Proof.
  intros Hwf Hs. unfold Url.href_pairs, Url.toString.
  rewrite href_query_serialize by assumption. symmetry. exact Hs.
Qed.

End AppendAll.

(** * Properties of the class *)

(** ** The public methods *)

Lemma invoke_eq (c : Handler.call) (this : Handler.loc) (w : Handler.world) :
  Handler.invoke c this w
  = (Js.Returns this,
     {| Handler.heap := alter (effect c) this (Handler.heap w);
        Handler.console := Handler.console w |}).
Proof.
  destruct c; try reflexivity.
  cbv [Handler.invoke Handler.reset Handler.assign mbind Handler.M_bind Handler.bind
       mret Handler.M_ret Handler.ret Handler.heap Handler.console].
  rewrite !alter_alter_eq. reflexivity.
Qed.

Lemma chain_eq (cs : list Handler.call) (this : Handler.loc) (w : Handler.world) :
  Handler.chain cs this w
  = (Js.Returns this,
     {| Handler.heap := alter (effects cs) this (Handler.heap w);
        Handler.console := Handler.console w |}).
Proof.
  revert w. induction cs as [|c cs IH]; intros [h k]; simpl.
  - unfold Handler.ret. f_equal. f_equal. symmetry. apply alter_id. reflexivity.
  - unfold mbind, Handler.M_bind, Handler.bind. rewrite invoke_eq, IH. simpl.
    rewrite alter_alter_eq. reflexivity.
Qed.

Lemma trace_eq (cs : list Handler.call) (this : Handler.loc) (w : Handler.world) :
  Handler.trace cs this w
  = (Js.Returns (replicate (length cs) this),
     {| Handler.heap := alter (effects cs) this (Handler.heap w);
        Handler.console := Handler.console w |}).
Proof.
  revert w. induction cs as [|c cs IH]; intros [h k]; simpl.
  - unfold Handler.ret. f_equal. f_equal. symmetry. apply alter_id. reflexivity.
  - unfold mbind, Handler.M_bind, Handler.bind. rewrite invoke_eq, IH. simpl.
    rewrite alter_alter_eq. reflexivity.
Qed.

(** No public method throws, on any argument and in any world. *)
Lemma invoke_never_throws (c : Handler.call) (this : Handler.loc) (w : Handler.world)
    (e : Js.error) :
  result (Handler.invoke c this) w <> Js.Throws e.
Proof. unfold result. rewrite invoke_eq. discriminate. Qed.

(** ** [buildUrl] *)

(** The loop appends the strings of the entries, or ends as the first
    conversion that fails; it has no effect on the world. *)
Lemma append_entries_eq (es : list (string * Js.value)) (u : Url.URL) (w : Handler.world) :
  Handler.append_entries es u w
  = match stringify_all es with
    | Js.Returns l => (Js.Returns (append_all l u), w)
    | Js.Throws x => (Js.Throws x, w)
    | Js.OutOfModel => (Js.OutOfModel, w)
    end.
Proof.
  revert u. induction es as [|[k v] es IH]; intros u; [reflexivity|].
  cbn [Handler.append_entries stringify_all snd fst].
  unfold mbind, Handler.M_bind, Handler.bind, Handler.lift.
  destruct (Js.USVString k) as [name| |]; cbn [Js.and_then]; try reflexivity.
  destruct (Js.ToString v) as [s| |]; cbn [Js.and_then]; try reflexivity.
  destruct (Js.USVString s) as [s'| |]; cbn [Js.and_then]; try reflexivity.
  rewrite IH. destruct (stringify_all es); reflexivity.
Qed.

(** What [buildUrl] does, case by case. *)
Lemma buildUrl_with_eq (parse : string -> Url.parse_result) (this : Handler.loc)
    (w : Handler.world) (o : Handler.RequestHandler) :
  Handler.heap w !! this = Some o ->
  Handler.buildUrl_with parse this w
  = match parse (Handler.baseUrl o) with
    | Url.Parsed u =>
        match stringify_all (Handler.apiParams o) with
        | Js.Returns l =>
            let href := Url.toString (append_all l (Url.of_record u)) in
            (Js.Returns href,
             {| Handler.heap := Handler.heap w;
                Handler.console := (Handler.console w ++ [href])%list |})
        | Js.Throws x => (Js.Throws x, w)
        | Js.OutOfModel => (Js.OutOfModel, w)
        end
    | Url.Failure => (Js.Throws (Js.TypeError "Invalid URL"), w)
    | Url.Unsupported => (Js.OutOfModel, w)
    end.
Proof.
  intros Ho.
  unfold Handler.buildUrl_with, mbind, Handler.M_bind, Handler.bind, Handler.get.
  rewrite Ho. simpl. unfold Handler.new_URL_with.
  destruct (parse (Handler.baseUrl o)) as [u| |]; try reflexivity.
  unfold Handler.ret, Js.entries. rewrite append_entries_eq.
  destruct (stringify_all _); reflexivity.
Qed.

Lemma buildUrl_eq (this : Handler.loc) (w : Handler.world) (o : Handler.RequestHandler) :
  Handler.heap w !! this = Some o ->
  Handler.buildUrl this w
  = match Url.parse (Handler.baseUrl o) with
    | Url.Parsed u =>
        match stringify_all (Handler.apiParams o) with
        | Js.Returns l =>
            let href := Url.toString (append_all l (Url.of_record u)) in
            (Js.Returns href,
             {| Handler.heap := Handler.heap w;
                Handler.console := (Handler.console w ++ [href])%list |})
        | Js.Throws x => (Js.Throws x, w)
        | Js.OutOfModel => (Js.OutOfModel, w)
        end
    | Url.Failure => (Js.Throws (Js.TypeError "Invalid URL"), w)
    | Url.Unsupported => (Js.OutOfModel, w)
    end.
Proof. apply buildUrl_with_eq. Qed.

Lemma buildUrl_with_dangling (parse : string -> Url.parse_result) (this : Handler.loc)
    (w : Handler.world) :
  Handler.heap w !! this = None ->
  Handler.buildUrl_with parse this w = (Js.OutOfModel, w).
Proof.
  intros Ho.
  unfold Handler.buildUrl_with, mbind, Handler.M_bind, Handler.bind, Handler.get.
  rewrite Ho. reflexivity.
Qed.

Lemma buildUrl_dangling (this : Handler.loc) (w : Handler.world) :
  Handler.heap w !! this = None -> Handler.buildUrl this w = (Js.OutOfModel, w).
Proof. apply buildUrl_with_dangling. Qed.

Lemma buildUrl_heap (this : Handler.loc) (w : Handler.world) :
  Handler.heap (after (Handler.buildUrl this) w) = Handler.heap w.
Proof.
  unfold after. destruct (Handler.heap w !! this) as [o|] eqn:Ho.
  - rewrite (buildUrl_eq _ _ _ Ho).
    destruct (Url.parse (Handler.baseUrl o)); try reflexivity.
    destruct (stringify_all _); reflexivity.
  - rewrite (buildUrl_dangling _ _ Ho). reflexivity.
Qed.

(** [buildUrl] throws in two cases: the stored [baseUrl] itself does not
    parse, the default origin playing no part, or the conversion of a
    stored parameter value to a string throws. *)
Lemma buildUrl_throws_iff (this : Handler.loc) (w : Handler.world)
    (o : Handler.RequestHandler) (e : Js.error) :
  Handler.heap w !! this = Some o ->
  result (Handler.buildUrl this) w = Js.Throws e
  <-> (Url.parse (Handler.baseUrl o) = Url.Failure /\ e = Js.TypeError "Invalid URL")
      \/ (exists u, Url.parse (Handler.baseUrl o) = Url.Parsed u
                    /\ stringify_all (Handler.apiParams o) = Js.Throws e).
Proof.
  intros Ho. unfold result. rewrite (buildUrl_eq _ _ _ Ho).
  destruct (Url.parse (Handler.baseUrl o)) as [u| |]; simpl.
  - destruct (stringify_all _) eqn:Hs; simpl; split;
      try discriminate; try (intros [[[=] _]|(? & [= <-] & [=])]; fail).
    + intros [= <-]. right. eauto.
    + intros [[[=] _]|(? & [= <-] & [= <-])]. reflexivity.
  - split.
    + intros [= <-]. left. split; reflexivity.
    + intros [[_ ->]|(? & [=] & _)]. reflexivity.
  - split; [discriminate|]. intros [[[=] _]|(? & [=] & _)].
Qed.

(** The stored path is never read. *)
Lemma buildUrl_ignores_path (p : string) (this : Handler.loc) (w : Handler.world) :
  result (Handler.buildUrl this) (after (Handler.path p this) w)
  = result (Handler.buildUrl this) w.
Proof.
  unfold result, after. change (Handler.path p) with (Handler.invoke (Handler.Cpath p)).
  rewrite invoke_eq. simpl.
  destruct (Handler.heap w !! this) as [o|] eqn:Ho.
  - erewrite (buildUrl_eq _ _ (effect (Handler.Cpath p) o)), (buildUrl_eq _ w o Ho).
    + simpl. destruct (Url.parse (Handler.baseUrl o)); try reflexivity.
        destruct (stringify_all _); reflexivity.
    + simpl. rewrite lookup_alter_eq, Ho. reflexivity.
  - rewrite !buildUrl_dangling; [reflexivity|exact Ho|].
    simpl. rewrite lookup_alter_eq, Ho. reflexivity.
Qed.

(** The pairs the loop appends are well formed, and stand for the
    entries, one for one and in their order. *)
Lemma stringify_all_well_formed (m : list (string * Js.value)) (l : list (string * string)) :
  stringify_all m = Js.Returns l -> Forall well_formed l.
Proof.
  revert l. induction m as [|[k v] m IH]; simpl; intros l.
  - intros [= <-]. constructor.
  - unfold Js.USVString at 1. destruct (Utf8.valid k) eqn:Hk; [|discriminate].
    destruct (Js.ToString v) as [s| |]; try discriminate. cbn [Js.and_then].
    unfold Js.USVString at 1. destruct (Utf8.valid s) eqn:Hs; [|discriminate].
    cbn [Js.and_then].
    destruct (stringify_all m) as [l'| |]; try discriminate.
    intros [= <-]. constructor; [split; assumption|]. apply IH. reflexivity.
Qed.

Lemma stringify_all_pairs (m : list (string * Js.value)) (l : list (string * string)) :
  stringify_all m = Js.Returns l ->
  Forall2 (fun e p => p.1 = e.1 /\ Js.ToString e.2 = Js.Returns p.2) m l.
Proof.
  revert l. induction m as [|[k v] m IH]; simpl; intros l.
  - intros [= <-]. constructor.
  - unfold Js.USVString at 1. destruct (Utf8.valid k); [|discriminate].
    destruct (Js.ToString v) as [s| |] eqn:Hv; try discriminate. cbn [Js.and_then].
    unfold Js.USVString at 1. destruct (Utf8.valid s); [|discriminate].
    cbn [Js.and_then].
    destruct (stringify_all m) as [l'| |]; try discriminate.
    intros [= <-]. constructor; [split; [reflexivity|exact Hv]|]. apply IH. reflexivity.
Qed.




(** The URL built on a parsed base URL, for any URL parser: the record of
    the base URL with its query replaced; read back, its pairs are those of
    the query of the record followed by the pairs appended. *)
Lemma buildUrl_with_parsed (parse : string -> Url.parse_result) (this : Handler.loc)
    (w : Handler.world) (o : Handler.RequestHandler) (u : Url.URLRecord)
    (l : list (string * string)) :
  Handler.heap w !! this = Some o ->
  parse (Handler.baseUrl o) = Url.Parsed u ->
  stringify_all (Handler.apiParams o) = Js.Returns l ->
  result (Handler.buildUrl_with parse this) w
  = Js.Returns (Url.serialize (with_query (built_query u l) u))
  /\ (wf_url u ->
      Url.href_query (Url.serialize (with_query (built_query u l) u)) = built_query u l
      /\ Url.href_pairs (Url.serialize (with_query (built_query u l) u))
         = (Form.parse (default "" (Url.query u)) ++ l)%list).
Proof.
  intros Ho Hu Hl. unfold result.
  rewrite (buildUrl_with_eq _ _ _ _ Ho), Hu, Hl. simpl.
  assert (E : Url.toString (append_all l (Url.of_record u))
              = Url.serialize (with_query (built_query u l) u)).
  { unfold Url.toString. rewrite append_all_url. reflexivity. }
  rewrite E. split; [reflexivity|]. intros Hwf.
  assert (Hwf' : wf_url (Url.url (append_all l (Url.of_record u))))
    by apply append_all_wf, Hwf.
  rewrite <- E. split.
  - unfold Url.toString. rewrite href_query_serialize by exact Hwf'.
    rewrite append_all_url. reflexivity.
  - rewrite href_pairs_toString.
    + apply append_all_searchParams.
    + exact Hwf'.
    + apply append_all_synced.
      * apply of_record_well_formed.
      * exact (stringify_all_well_formed _ _ Hl).
      * apply of_record_synced.
Qed.

(** * The claims

    The specification names the operations [setBaseUrl], [setPath],
    [setQueryParams], [setHeaders], [setBody], [bindTransport], [reset] and
    [composeUrl]; in the class they are [url], [path], [param], [header],
    [body], [withRequest], [reset] and the private [buildUrl]. *)

Import Js Handler.

(** C1 (code defect).  The claim asks for the resolved origin, one slash and
    the stored path.  [buildUrl] never reads [apiPath]: with the origin set,
    with or without its trailing slash, and the path stored with or without
    its leading slash, the URL built is the origin and "/", without the
    path. *)
Theorem buildUrl_leaves_path_out :
  result (session [Curl "https://conduit-api.bondaracademy.com"; Cpath "/api/articles"])
    empty_world = Returns "https://conduit-api.bondaracademy.com/"
  /\ result (session [Curl "https://conduit-api.bondaracademy.com/"; Cpath "/api/articles"])
       empty_world = Returns "https://conduit-api.bondaracademy.com/"
  /\ result (session [Curl "https://conduit-api.bondaracademy.com"; Cpath "api/articles"])
       empty_world = Returns "https://conduit-api.bondaracademy.com/"
  /\ result (session [Curl "https://conduit-api.bondaracademy.com/"; Cpath "api/articles"])
       empty_world = Returns "https://conduit-api.bondaracademy.com/".
Proof. repeat split; vm_compute; reflexivity. Qed.

(** C2 (code defect).  The claim asks for the default origin whenever
    [baseUrl] is empty.  [this.baseUrl ?? this.defaultBaseUrl] keeps the
    empty string, which is not nullish, and [new URL] of it throws: with only
    [path('/api/tags')], and again after [reset()], although the default
    origin itself parses. *)
Theorem default_origin_not_used :
  result (session [Cpath "/api/tags"]) empty_world = Throws (TypeError "Invalid URL")
  /\ result (session [Curl "https://conduit-api.bondaracademy.com"; Creset]) empty_world
     = Throws (TypeError "Invalid URL")
  /\ nullish_coalesce (String (baseUrl initial)) (String (defaultBaseUrl initial))
     = String ""
  /\ exists u, Url.parse (defaultBaseUrl initial) = Url.Parsed u
               /\ Url.serialize u = "https://conduit-api.bondaracademy.com/".
Proof.
  repeat split; try (vm_compute; reflexivity).
  eexists. split; vm_compute; reflexivity.
Qed.

(** C3 (code defect, the one of C2).  The claim lets [buildUrl] fail only
    when the resolved origin, the default one for an empty [baseUrl], is not
    a valid URL.  On every instance whose [baseUrl] is empty [buildUrl]
    throws the [TypeError] of [new URL], whatever the default origin is. *)
Theorem buildUrl_throws_on_empty_baseUrl (this : loc) (w : world) (o : RequestHandler) :
  heap w !! this = Some o ->
  baseUrl o = "" ->
  result (buildUrl this) w = Throws (TypeError "Invalid URL").
Proof.
  intros Ho Hb. apply (buildUrl_throws_iff _ _ _ _ Ho). left. rewrite Hb.
  split; reflexivity.
Qed.

Lemma buildUrl_throws_on_empty_baseUrl_witness :
  heap (configured []) !! 1%positive = Some initial
  /\ result (buildUrl 1%positive) (configured []) = Throws (TypeError "Invalid URL").
Proof.
  split; [reflexivity|].
  apply (buildUrl_throws_on_empty_baseUrl 1%positive (configured []) initial);
    reflexivity.
Defined.

(** C4, as the code has it.  [header(h)] and [body(b)] store their argument
    in the fields [apiHeader] and [apiBody] of the instance; the public
    methods give nothing but the instance back, whatever is stored. *)
Theorem headers_body_stored_not_exposed (this : loc) (w : world) (o : RequestHandler)
    (h b : object) (cs : list call) :
  heap w !! this = Some o ->
  apiHeader <$> heap (after (header h this) w) !! this = Some h
  /\ apiBody <$> heap (after (body b this) w) !! this = Some b
  /\ result (trace cs this) w = Returns (replicate (length cs) this).
Proof.
  intros Ho. unfold after, result.
  change (header h) with (invoke (Cheader h)).
  change (body b) with (invoke (Cbody b)).
  rewrite !invoke_eq, trace_eq. simpl.
  rewrite !lookup_alter_eq, Ho. repeat split.
Qed.

Lemma headers_body_stored_not_exposed_witness :
  apiHeader <$> heap (after (header [("Authorization", String "authToken")] 1%positive)
                        (configured [])) !! 1%positive
  = Some [("Authorization", String "authToken")]
  /\ apiBody <$> heap (after (body [("title", String "Cricket")] 1%positive)
                         (configured [])) !! 1%positive
     = Some [("title", String "Cricket")]
  /\ result (trace [Cheader [("Authorization", String "authToken")]; Cpath "/api/tags"]
               1%positive) (configured [])
     = Returns [1%positive; 1%positive].
Proof.
  apply (headers_body_stored_not_exposed 1%positive (configured []) initial
           [("Authorization", String "authToken")] [("title", String "Cricket")]
           [Cheader [("Authorization", String "authToken")]; Cpath "/api/tags"]).
  reflexivity.
Defined.

(** C4 as stated fails: no sequence of public calls, and no way to read
    what they return, gives back the stored headers and body. *)
Lemma no_public_accessor :
  ~ exists (cs : list call) (read : outcome (list loc) -> object * object),
      forall (w : world) (this : loc) (o : RequestHandler),
        heap w !! this = Some o ->
        read (result (trace cs this) w) = (apiHeader o, apiBody o).
Proof.
  intros (cs & read & H).
  pose proof (H (configured [Cheader [("Authorization", String "authToken")]])
                1%positive _ eq_refl) as H1.
  pose proof (H (configured []) 1%positive _ eq_refl) as H2.
  unfold result in H1, H2. rewrite trace_eq in H1, H2. simpl in H1, H2.
  rewrite H1 in H2. discriminate H2.
Qed.




(** The example of C5 evaluated: [{a: 1}] then [{b: 2}]. *)
Example example_param_twice :
  result (session [Curl origin; Cparam [("a", Number 1)]; Cparam [("b", Number 2)]])
    empty_world
  = Returns "https://conduit-api.bondaracademy.com/?b=2".
Proof. vm_compute. reflexivity. Qed.

(** C6.  [reset()] returns the instance, puts [baseUrl], [apiPath],
    [apiParams], [apiHeader] and [apiBody] back to their initial values and
    leaves the bound request object, and every other instance, as it was. *)
Theorem reset_restores_defaults (this : loc) (w : world) (o : RequestHandler) :
  heap w !! this = Some o ->
  result (reset this) w = Returns this
  /\ heap (after (reset this) w) !! this
     = Some {| defaultBaseUrl := defaultBaseUrl o;
               baseUrl := baseUrl initial;
               apiPath := apiPath initial;
               apiParams := apiParams initial;
               apiHeader := apiHeader initial;
               apiBody := apiBody initial;
               request := request o |}
  /\ forall l, l <> this -> heap (after (reset this) w) !! l = heap w !! l.
Proof.
  intros Ho. unfold result, after. change reset with (invoke Creset).
  rewrite invoke_eq. simpl. split; [reflexivity|]. split.
  - rewrite lookup_alter_eq, Ho. reflexivity.
  - intros l Hl. apply lookup_alter_ne. congruence.
Qed.

Lemma reset_restores_defaults_witness :
  let w := configured [Curl origin; Cpath "/api/articles";
                       Cparam [("limit", Number 10)];
                       Cheader [("Authorization", String "authToken")];
                       Cbody [("title", String "Cricket")];
                       CwithRequest (Object [("kind", String "APIRequestContext")])] in
  heap (after (reset 1%positive) w) !! 1%positive
  = Some {| defaultBaseUrl := origin; baseUrl := ""; apiPath := "";
            apiParams := []; apiHeader := []; apiBody := [];
            request := Object [("kind", String "APIRequestContext")] |}.
Proof.
  exact (proj1 (proj2 (reset_restores_defaults 1%positive
    (configured [Curl origin; Cpath "/api/articles";
                 Cparam [("limit", Number 10)];
                 Cheader [("Authorization", String "authToken")];
                 Cbody [("title", String "Cricket")];
                 CwithRequest (Object [("kind", String "APIRequestContext")])])
    _ eq_refl))).
Defined.

(** C7.  [buildUrl] leaves every instance as it was, and a second call
    ends as the first one did. *)
Theorem buildUrl_reads_only (this : loc) (w : world) :
  heap (after (buildUrl this) w) = heap w
  /\ result (buildUrl this) (after (buildUrl this) w) = result (buildUrl this) w.
Proof.
  split; [apply buildUrl_heap|].
  unfold after, result. destruct (heap w !! this) as [o|] eqn:Ho.
  - assert (Ho' : heap (buildUrl this w).2 !! this = Some o)
      by (rewrite <- Ho; f_equal; apply buildUrl_heap).
    rewrite (buildUrl_eq _ _ _ Ho'), (buildUrl_eq _ _ _ Ho).
    destruct (Url.parse (baseUrl o)); try reflexivity.
    destruct (stringify_all _); reflexivity.
  - rewrite (buildUrl_dangling _ _ Ho). simpl.
    rewrite (buildUrl_dangling _ _ Ho). reflexivity.
Qed.




(** The query string of the witness of C8, evaluated. *)
Example example_limit_query :
  result (session [Curl origin; Cpath "/api/articles";
                   Cparam [("limit", Number 10); ("q", String "a b&c=d é")]])
    empty_world
  = Returns "https://conduit-api.bondaracademy.com/?limit=10&q=a+b%26c%3Dd+%C3%A9"
  /\ Url.href_pairs "https://conduit-api.bondaracademy.com/?limit=10&q=a+b%26c%3Dd+%C3%A9"
     = [("limit", "10"); ("q", "a b&c=d é")].
Proof. split; vm_compute; reflexivity. Qed.

(** C9.  Every public call returns the reference it was made on, so a
    chain of calls returns it too; the calls of a chain act one after the
    other on that one instance, and no instance is created. *)
Theorem fluent_identity (c : call) (cs : list call) (this : loc) (w : world) :
  result (invoke c this) w = Returns this
  /\ result (chain cs this) w = Returns this
  /\ heap (after (chain cs this) w) = alter (effects cs) this (heap w)
  /\ dom (heap (after (chain cs this) w)) = dom (heap w).
Proof.
  unfold result, after. rewrite invoke_eq, chain_eq. simpl.
  repeat split. apply dom_alter_L.
Qed.

(** C10.  When the stored base URL parses, the pairs of the built URL are
    the pairs read off the query of the stored string itself, in their
    order, and after them the stored entries, one for each and in their
    order, each value as its string; when the conversion of a value to a
    string throws, so does [buildUrl].  The stored string is read as the
    URL parser reads it, the white space it strips left out. *)
Theorem base_query_preserved (parse : string -> Url.parse_result) (this : loc)
    (w : world) (o : RequestHandler) (u : Url.URLRecord) :
  parses_well parse ->
  keeps_query parse ->
  heap w !! this = Some o ->
  parse (baseUrl o) = Url.Parsed u ->
  match stringify_all (apiParams o) with
  | Returns l =>
      exists href,
        result (buildUrl_with parse this) w = Returns href
        /\ Url.href_pairs href
           = (Url.href_pairs (Url.preprocess (baseUrl o)) ++ l)%list
        /\ Forall2 (fun e p => p.1 = e.1 /\ ToString e.2 = Returns p.2) (apiParams o) l
  | Throws e => result (buildUrl_with parse this) w = Throws e
  | OutOfModel => result (buildUrl_with parse this) w = OutOfModel
  end.
Proof.
  intros Hwf Hkeep Ho Hu.
  destruct (stringify_all (apiParams o)) as [l|e|] eqn:Hl.
  - destruct (buildUrl_with_parsed parse this w o u l Ho Hu Hl) as [Hr Hback].
    eexists. split; [exact Hr|]. split; [|exact (stringify_all_pairs _ _ Hl)].
    rewrite (proj2 (Hback (Hwf _ _ Hu))), (Hkeep _ _ Hu). reflexivity.
  - unfold result. rewrite (buildUrl_with_eq _ _ _ _ Ho), Hu, Hl. reflexivity.
  - unfold result. rewrite (buildUrl_with_eq _ _ _ _ Ho), Hu, Hl. reflexivity.
Qed.

Lemma base_query_preserved_witness :
  exists href,
    result (buildUrl 1%positive)
      (configured [Curl "https://x.com/p?a=1&z#frag"; Cparam [("b", Number (-2))]])
    = Returns href
    /\ Url.href_pairs href
       = (Url.href_pairs (Url.preprocess "https://x.com/p?a=1&z#frag")
          ++ [("b", "-2")])%list
    /\ Forall2 (fun e p => p.1 = e.1 /\ ToString e.2 = Returns p.2)
         [("b", Number (-2))] [("b", "-2")].
Proof.
  exact (base_query_preserved Url.parse 1%positive
           (configured [Curl "https://x.com/p?a=1&z#frag"; Cparam [("b", Number (-2))]])
           (set_apiParams [("b", Number (-2))]
              (set_baseUrl "https://x.com/p?a=1&z#frag" initial))
           {| Url.scheme := "https"; Url.username := ""; Url.password := "";
              Url.host := Some "x.com"; Url.port := None;
              Url.path := Url.Segments ["p"]; Url.query := Some "a=1&z";
              Url.fragment := Some "frag" |}
           parse_wf parse_keeps_query eq_refl eq_refl).
Defined.

(** The witness of C10, evaluated. *)
Example example_base_query :
  result (session [Curl "https://x.com/p?a=1&z#frag"; Cparam [("b", Number (-2))]])
    empty_world
  = Returns "https://x.com/p?a=1&z=&b=-2#frag"
  /\ Url.href_pairs (Url.preprocess "https://x.com/p?a=1&z#frag") = [("a", "1"); ("z", "")]
  /\ Url.href_pairs "https://x.com/p?a=1&z=&b=-2#frag" = [("a", "1"); ("z", ""); ("b", "-2")].
Proof. repeat split; vm_compute; reflexivity. Qed.

(** A percent-escape of the base URL that is not UTF-8 is read with U+FFFD,
    in the stored string and in the built URL alike. *)
Example example_base_query_replaced :
  result (session [Curl "https://x.com/?x=%FF"; Cparam [("b", Number 2)]]) empty_world
  = Returns "https://x.com/?x=%EF%BF%BD&b=2"
  /\ Url.href_pairs (Url.preprocess "https://x.com/?x=%FF")
     = [("x", Utf8.replacement "")]
  /\ Url.href_pairs "https://x.com/?x=%EF%BF%BD&b=2"
     = [("x", Utf8.replacement ""); ("b", "2")].
Proof. repeat split; vm_compute; reflexivity. Qed.

(** * Further properties of the class *)

(** ** The constructor and the fixture *)

(** X1.  The fixture hands every test an instance that was not live before,
    whatever the world holds; after a chain of calls on it that instance
    holds the initial values changed by the chain alone, and the instances
    that were live, and the console, are as they were. *)
Theorem fixture_isolation (cs : list call) (w : world) :
  exists api,
    heap w !! api = None
    /\ result (api_fixture (chain cs)) w = Returns api
    /\ heap (after (api_fixture (chain cs)) w) = <[api := effects cs initial]> (heap w)
    /\ console (after (api_fixture (chain cs)) w) = console w.
Proof.
  exists (fresh (dom (heap w))).
  split; [apply not_elem_of_dom, is_fresh|].
  unfold result, after, api_fixture, mbind, M_bind, bind, new.
  rewrite chain_eq. simpl. repeat split. apply alter_insert_eq.
Qed.

(** ** How the public calls compose *)

(** X2.  A public call changes, on the instance it is made on, only the
    fields its method assigns: every other field, [defaultBaseUrl] among
    them, keeps its value, and so does every other instance. *)
Theorem call_frame (c : call) (f : field) (this l : loc) (w : world) :
  ~ In f (writes c) ->
  field_value f <$> heap (after (invoke c this) w) !! l = field_value f <$> heap w !! l
  /\ defaultBaseUrl <$> heap (after (invoke c this) w) !! l = defaultBaseUrl <$> heap w !! l
  /\ (l <> this -> heap (after (invoke c this) w) !! l = heap w !! l).
Proof.
  intros Hf. unfold after. rewrite invoke_eq. simpl. rewrite lookup_alter.
  destruct (decide (this = l)) as [->|Hne].
  - destruct (heap w !! l) as [o|]; simpl; [|repeat split; congruence].
    split; [|split; [|congruence]].
    + f_equal. destruct c, f; try reflexivity; exfalso; apply Hf; simpl; tauto.
    + destruct c; reflexivity.
  - repeat split.
Qed.

Lemma call_frame_witness :
  field_value FapiHeader
    <$> heap (after (invoke (Curl "https://example.com") 1%positive)
                (configured [Cheader [("Authorization", String "authToken")]])) !! 1%positive
  = field_value FapiHeader
      <$> heap (configured [Cheader [("Authorization", String "authToken")]]) !! 1%positive.
Proof.
  refine (proj1 (call_frame (Curl "https://example.com") FapiHeader 1%positive 1%positive
                   (configured [Cheader [("Authorization", String "authToken")]]) _)).
  simpl. intros [H|[]]. discriminate H.
Defined.

(** X3.  Two public calls that assign different fields can be made in
    either order: the world after them is the same. *)
Theorem disjoint_calls_commute (c1 c2 : call) (this : loc) (w : world) :
  (forall f, In f (writes c1) -> ~ In f (writes c2)) ->
  after (invoke c2 this) (after (invoke c1 this) w)
  = after (invoke c1 this) (after (invoke c2 this) w).
Proof.
  intros H. unfold after. rewrite !invoke_eq. simpl. rewrite !alter_alter_eq.
  f_equal. apply alter_ext. intros o _.
  destruct c1, c2; try reflexivity; by_field H.
Qed.

Lemma disjoint_calls_commute_witness :
  after (invoke (Cpath "/api/articles") 1%positive)
    (after (invoke (Curl "https://example.com") 1%positive) (configured []))
  = after (invoke (Curl "https://example.com") 1%positive)
      (after (invoke (Cpath "/api/articles") 1%positive) (configured [])).
Proof.
  apply (disjoint_calls_commute (Curl "https://example.com") (Cpath "/api/articles")).
  simpl. intros f [<-|[]] [H|[]]. discriminate H.
Defined.

(** X4.  A public call undoes every earlier call whose fields it assigns
    too: a setter called twice keeps the second argument only, and [reset]
    wipes what [url], [path], [param], [header] and [body] stored. *)
Theorem later_call_overwrites (c1 c2 : call) (this : loc) (w : world) :
  (forall f, In f (writes c1) -> In f (writes c2)) ->
  after (invoke c2 this) (after (invoke c1 this) w) = after (invoke c2 this) w.
Proof.
  intros H. unfold after. rewrite !invoke_eq. simpl. rewrite alter_alter_eq.
  f_equal. apply alter_ext. intros o _.
  destruct c1, c2; try reflexivity; by_field H.
Qed.

Lemma later_call_overwrites_witness :
  after (invoke Creset 1%positive)
    (after (invoke (Cbody [("title", String "Cricket")]) 1%positive) (configured []))
  = after (invoke Creset 1%positive) (configured []).
Proof.
  apply (later_call_overwrites (Cbody [("title", String "Cricket")]) Creset).
  simpl. intros f [<-|[]]. tauto.
Defined.

(** A chain cut in two is the first part, then the second part called on
    what the first returned: same value, same world. *)
Lemma chain_app (cs1 cs2 : list call) (this : loc) (w : world) :
  chain (cs1 ++ cs2)%list this w
  = (r ← chain cs1 this ; chain cs2 r) w.
Proof.
  unfold mbind, M_bind, bind. rewrite !chain_eq. simpl. rewrite ?chain_eq. simpl.
  rewrite alter_alter_eq. f_equal. f_equal. apply alter_ext. intros o _.
  unfold effects. simpl. apply foldl_app.
Qed.

(** ** More on [buildUrl] *)

(** X5.  When [buildUrl] returns, it has written the URL it returns to the
    console, once, and nothing else; when it throws, the world is as it
    was. *)
Theorem buildUrl_logs_what_it_returns (this : loc) (w : world) :
  match result (buildUrl this) w with
  | Returns href =>
      console (after (buildUrl this) w) = (console w ++ [href])%list
      /\ heap (after (buildUrl this) w) = heap w
  | Throws _ | OutOfModel => after (buildUrl this) w = w
  end.
Proof.
  unfold result, after. destruct (heap w !! this) as [o|] eqn:Ho.
  - rewrite (buildUrl_eq _ _ _ Ho).
    destruct (Url.parse (baseUrl o)); simpl; try reflexivity.
    destruct (stringify_all _); simpl; try split; reflexivity.
  - rewrite (buildUrl_dangling _ _ Ho). reflexivity.
Qed.

(** X6.  What [buildUrl] returns or throws is decided by [baseUrl] and
    [apiParams] alone: two instances, in whatever worlds, that agree on
    these two fields give the same outcome, whatever their paths, headers,
    bodies and request objects are. *)
Theorem buildUrl_reads_baseUrl_and_params (this1 this2 : loc) (w1 w2 : world)
    (o1 o2 : RequestHandler) :
  heap w1 !! this1 = Some o1 ->
  heap w2 !! this2 = Some o2 ->
  baseUrl o1 = baseUrl o2 ->
  apiParams o1 = apiParams o2 ->
  result (buildUrl this1) w1 = result (buildUrl this2) w2.
Proof.
  intros H1 H2 Hb Hp. unfold result.
  rewrite (buildUrl_eq _ _ _ H1), (buildUrl_eq _ _ _ H2), Hb, Hp.
  destruct (Url.parse (baseUrl o2)); try reflexivity.
  destruct (stringify_all _); reflexivity.
Qed.

Lemma buildUrl_reads_baseUrl_and_params_witness :
  result (buildUrl 1%positive)
    (configured [Curl "https://example.com/v1"; Cparam [("limit", Number 10)]])
  = result (buildUrl 1%positive)
      (configured [Cheader [("Authorization", String "authToken")];
                   Cparam [("limit", Number 10)];
                   Cbody [("title", String "Cricket")];
                   Cpath "/api/articles";
                   CwithRequest (Object []);
                   Curl "https://example.com/v1"]).
Proof.
  exact (buildUrl_reads_baseUrl_and_params 1%positive 1%positive
           (configured [Curl "https://example.com/v1"; Cparam [("limit", Number 10)]])
           (configured [Cheader [("Authorization", String "authToken")];
                        Cparam [("limit", Number 10)];
                        Cbody [("title", String "Cricket")];
                        Cpath "/api/articles";
                        CwithRequest (Object []);
                        Curl "https://example.com/v1"])
           _ _ eq_refl eq_refl eq_refl eq_refl).
Defined.

(** X7.  Whatever record the URL parser gives for the stored base URL,
    [buildUrl] returns the serialization of that record with its query alone
    replaced: scheme, credentials, host, port, path and fragment are those
    of the record; without entries the query is the one of the record too,
    with entries it is the serialization of the pairs that query decodes to,
    followed by the entries, each value as its string.  When the conversion
    of a value throws, [buildUrl] throws that error. *)
Theorem buildUrl_keeps_base_components (parse : string -> Url.parse_result)
    (this : loc) (w : world) (o : RequestHandler) (u : Url.URLRecord) :
  heap w !! this = Some o ->
  parse (baseUrl o) = Url.Parsed u ->
  match stringify_all (apiParams o) with
  | Returns l =>
      result (buildUrl_with parse this) w
      = Returns (Url.serialize (with_query (built_query u l) u))
  | Throws e => result (buildUrl_with parse this) w = Throws e
  | OutOfModel => result (buildUrl_with parse this) w = OutOfModel
  end.
Proof.
  intros Ho Hu. destruct (stringify_all (apiParams o)) as [l|e|] eqn:Hl.
  - apply (buildUrl_with_parsed parse this w o u l Ho Hu Hl).
  - unfold result. rewrite (buildUrl_with_eq _ _ _ _ Ho), Hu, Hl. reflexivity.
  - unfold result. rewrite (buildUrl_with_eq _ _ _ _ Ho), Hu, Hl. reflexivity.
Qed.

Lemma buildUrl_keeps_base_components_witness :
  result (buildUrl 1%positive)
    (configured [Curl "HTTPS://User@Example.com:443/a/../b c?x=1#top";
                 Cparam [("q", String "a&b")]])
  = Returns "https://User@example.com/b%20c?x=1&q=a%26b#top".
Proof.
  exact (buildUrl_keeps_base_components Url.parse 1%positive
           (configured [Curl "HTTPS://User@Example.com:443/a/../b c?x=1#top";
                        Cparam [("q", String "a&b")]])
           _
           {| Url.scheme := "https"; Url.username := "User"; Url.password := "";
              Url.host := Some "example.com"; Url.port := None;
              Url.path := Url.Segments ["b%20c"]; Url.query := Some "x=1";
              Url.fragment := Some "top" |}
           eq_refl eq_refl).
Defined.

(** X8.  The URL of a session, a new instance configured by a chain of
    calls, does not depend on the world it runs in: no other instance, and
    nothing an earlier session did, has a part in it. *)
Theorem session_independent_of_world (cs : list call) (w : world) :
  result (session cs) w = result (session cs) empty_world.
Proof.
  unfold result, session, mbind, M_bind, bind, new. rewrite !chain_eq. simpl.
  rewrite !alter_insert_eq.
  erewrite !buildUrl_eq by (simpl; apply lookup_insert_eq).
  destruct (Url.parse _); try reflexivity.
  destruct (stringify_all _); reflexivity.
Qed.

(** X9.  In every world a client can reach, by making instances, calling
    public methods and having URLs built, every instance still has the
    default origin it was made with. *)
Theorem defaultBaseUrl_never_changes (w : world) (l : loc) (o : RequestHandler) :
  reachable w ->
  heap w !! l = Some o ->
  defaultBaseUrl o = "https://conduit-api.bondaracademy.com".
Proof.
  intros Hw. revert l o. unfold reachable in Hw.
  apply (rtc_ind_r (R := step) (fun w => forall l o, heap w !! l = Some o ->
                      defaultBaseUrl o = "https://conduit-api.bondaracademy.com")
           empty_world); [| |exact Hw]; clear w Hw.
  - intros l o H. simpl in H. rewrite lookup_empty in H. discriminate.
  - intros w w' _ Hstep IH l o. destruct Hstep as [|c this _|this _].
    + unfold after, new. simpl. rewrite lookup_insert.
      destruct (decide _); [intros [= <-]; reflexivity|apply IH].
    + unfold after. rewrite invoke_eq. simpl. rewrite lookup_alter.
      destruct (decide _) as [->|]; [|apply IH].
      destruct (heap w !! l) as [o'|] eqn:Ho'; [|discriminate].
      intros [= <-]. rewrite <- (IH _ _ Ho'). destruct c; reflexivity.
    + rewrite buildUrl_heap. apply IH.
Qed.

Lemma defaultBaseUrl_never_changes_witness :
  defaultBaseUrl (effects [Curl "https://example.com"; Creset] initial)
  = "https://conduit-api.bondaracademy.com".
Proof.
  apply (defaultBaseUrl_never_changes
           (after (invoke Creset 1%positive)
              (after (invoke (Curl "https://example.com") 1%positive)
                 (after new empty_world)))
           1%positive).
  - unfold reachable.
    eapply rtc_r; [eapply rtc_r; [eapply rtc_once; apply step_new|]|].
    + apply (step_invoke _ (Curl "https://example.com") 1%positive). eexists. reflexivity.
    + apply (step_invoke _ Creset 1%positive). eexists. reflexivity.
  - reflexivity.
Defined.

(** ** The characters of the built URL *)

Lemma printable_digit (c : ascii) : Chr.is_digit c = true -> printable c = true.
Proof. each_byte c; vm_compute; congruence. Qed.

Lemma printable_domain (c : ascii) :
  Url.is_ascii c = true ->
  negb (Url.forbidden_domain_code_point (Chr.lower c)) = true ->
  printable (Chr.lower c) = true.
Proof. each_byte c; vm_compute; congruence. Qed.

Lemma printable_path (c : ascii) : Pct.path_set c = false -> printable c = true.
Proof. each_byte c; vm_compute; congruence. Qed.

Lemma printable_userinfo (c : ascii) : Pct.userinfo_set c = false -> printable c = true.
Proof. each_byte c; vm_compute; congruence. Qed.

Lemma printable_special_query (c : ascii) :
  Pct.special_query_set c = false -> printable c = true.
Proof. each_byte c; vm_compute; congruence. Qed.

Lemma printable_fragment (c : ascii) :
  Pct.fragment_set c = false -> printable c = true.
Proof. each_byte c; vm_compute; congruence. Qed.

Lemma printable_form (c : ascii) :
  form_char c || Chr.one_of "=&" c = true -> printable c = true.
Proof. each_byte c; vm_compute; congruence. Qed.

Lemma printable_schemes :
  Forall (fun e => Str.forallb printable e.1 = true) Url.special_schemes.
Proof. repeat constructor. Qed.

(** The components of a record the modelled parser returns are printable
    ASCII. *)
Lemma parse_printable (input : string) (u : Url.URLRecord) :
  Url.parse input = Url.Parsed u -> record_chars printable u.
Proof.
  intros (sch & userinfo & h & h' & prt & tail & Hsch & Hh & ->)%parse_inv.
  split; simpl.
  - apply (scheme_chars printable printable_schemes), Hsch.
  - apply (userinfo_chars printable eq_refl printable_userinfo).
  - apply (userinfo_chars printable eq_refl printable_userinfo).
  - intros ? [= <-].
    apply (host_chars printable printable_digit eq_refl printable_domain _ _ Hh).
  - apply (path_state_chars printable eq_refl printable_path). constructor.
  - intros x. destruct (Url.href_query _); intros [= <-].
    apply forallb_encode; [reflexivity|apply printable_special_query].
  - intros x. destruct (Str.cut _ _).2; intros [= <-].
    apply forallb_encode; [reflexivity|apply printable_fragment].
Qed.

Lemma append_printable (name value : string) (o : Url.URL) :
  record_chars printable (Url.url o) ->
  record_chars printable (Url.url (Url.append name value o)).
Proof.
  intros [Hs Hu Hp Hh Hpa Hq Hf]. split; simpl; try assumption.
  intros q. destruct (String.eqb _ ""); intros [= <-].
  apply (forallb_weaken _ _ _ printable_form), forallb_form_serialize.
Qed.

Lemma append_all_printable (l : list (string * string)) (o : Url.URL) :
  record_chars printable (Url.url o) ->
  record_chars printable (Url.url (append_all l o)).
Proof.
  intros Ho. induction l as [|p l IH] using rev_ind; [exact Ho|].
  rewrite append_all_snoc. apply append_printable, IH.
Qed.

Lemma serialize_printable (u : Url.URLRecord) :
  record_chars printable u -> Str.forallb printable (Url.serialize u) = true.
Proof.
  intros [Hs Hu Hp Hh Hpa Hq Hf]. unfold Url.serialize.
  rewrite forallb_app, Hs. cbn [andb].
  change (Str.forallb printable (":" ++ ?x)) with (Str.forallb printable x).
  rewrite !forallb_app.
  assert (Ha : Str.forallb printable (Url.serialize_authority u) = true).
  { unfold Url.serialize_authority. destruct (Url.host u) as [h|].
    - change (Str.forallb printable ("//" ++ ?x)) with (Str.forallb printable x).
      rewrite !forallb_app, (Hh _ eq_refl). cbn [andb].
      apply andb_true_iff. split.
      + unfold Url.serialize_credentials.
        destruct (_ && _); [reflexivity|].
        rewrite !forallb_app, Hu. cbn [andb].
        destruct (String.eqb (Url.password u) ""); [reflexivity|].
        change (Str.forallb printable (":" ++ ?x)) with (Str.forallb printable x).
        rewrite Hp. reflexivity.
      + destruct (Url.port u) as [n|]; simpl; [|reflexivity].
        apply (forallb_weaken _ _ _ printable_digit), forallb_decimal.
    - destruct (Url.path u) as [|[|[|] [|]]]; reflexivity. }
  assert (Hpath : Str.forallb printable (Url.serialize_path (Url.path u)) = true).
  { destruct (Url.path u); simpl; [exact Hpa|].
    apply segments_chars; [exact Hpa|reflexivity]. }
  rewrite Ha, Hpath. cbn [andb].
  destruct (Url.query u) as [q|], (Url.fragment u) as [f|]; simpl;
    rewrite ?forallb_app; simpl; rewrite ?(Hq _ eq_refl), ?(Hf _ eq_refl); reflexivity.
Qed.

(** X10.  When the record the URL parser gives for the stored base URL is
    written in printable ASCII without space, so is the URL [buildUrl]
    returns: what the parameters bring is percent-encoded, or "+" for a
    space.  The records of the modelled parser are so written
    ([parse_printable]). *)
Theorem buildUrl_href_printable (parse : string -> Url.parse_result) (this : loc)
    (w : world) (o : RequestHandler) (u : Url.URLRecord) (href : string) :
  heap w !! this = Some o ->
  parse (baseUrl o) = Url.Parsed u ->
  record_chars printable u ->
  result (buildUrl_with parse this) w = Returns href ->
  Str.forallb printable href = true.
Proof.
  intros Ho Hu Hchars. unfold result.
  rewrite (buildUrl_with_eq _ _ _ _ Ho), Hu.
  destruct (stringify_all _); try discriminate. simpl.
  intros [= <-]. apply serialize_printable, append_all_printable. exact Hchars.
Qed.

Lemma buildUrl_href_printable_witness :
  result (buildUrl 1%positive)
    (configured [Curl " https://Example.com/caf é/?q=a b#é "; Cparam [("k é", String "v w")]])
  = Returns "https://example.com/caf%20%C3%A9/?q=a+b&k+%C3%A9=v+w#%C3%A9"
  /\ Str.forallb printable "https://example.com/caf%20%C3%A9/?q=a+b&k+%C3%A9=v+w#%C3%A9"
     = true.
Proof.
  split; [reflexivity|].
  apply (buildUrl_href_printable Url.parse 1%positive
           (configured [Curl " https://Example.com/caf é/?q=a b#é ";
                        Cparam [("k é", String "v w")]])
           (set_apiParams [("k é", String "v w")]
              (set_baseUrl " https://Example.com/caf é/?q=a b#é " initial))
           {| Url.scheme := "https"; Url.username := ""; Url.password := "";
              Url.host := Some "example.com"; Url.port := None;
              Url.path := Url.Segments ["caf%20%C3%A9"; ""];
              Url.query := Some "q=a%20b"; Url.fragment := Some "%C3%A9" |}
           _ eq_refl eq_refl).
  - apply (parse_printable " https://Example.com/caf é/?q=a b#é "). reflexivity.
  - reflexivity.
Defined.

(** ** A base URL without scheme *)

Section Preserved.
Variable q : ascii -> bool.

Lemma forallb_filter (p : ascii -> bool) (s : string) :
  Str.forallb q s = true -> Str.forallb q (Str.filter p s) = true.
Proof.
  induction s as [|c s IH]; simpl; [reflexivity|].
  intros [Hc Hs]%andb_true_iff. destruct (p c); simpl; [rewrite Hc|]; auto.
Qed.

Lemma forallb_drop_while (p : ascii -> bool) (s : string) :
  Str.forallb q s = true -> Str.forallb q (Str.drop_while p s) = true.
Proof.
  induction s as [|c s IH]; simpl; [reflexivity|].
  intros H. destruct (p c); [|exact H].
  apply andb_true_iff in H as [_ Hs]. auto.
Qed.

Lemma forallb_of_list (l : list ascii) :
  Str.forallb q (string_of_list_ascii l) = List.forallb q l.
Proof. induction l as [|c l IH]; simpl; congruence. Qed.

Lemma forallb_to_list (s : string) :
  List.forallb q (list_ascii_of_string s) = Str.forallb q s.
Proof. induction s as [|c s IH]; simpl; congruence. Qed.

Lemma forallb_rev (s : string) :
  Str.forallb q s = true -> Str.forallb q (Str.rev s) = true.
Proof.
  unfold Str.rev. rewrite forallb_of_list, <- forallb_to_list.
  rewrite !List.forallb_forall. intros H c Hc. apply H, in_rev, Hc.
Qed.

Lemma forallb_cut (p : ascii -> bool) (s : string) :
  Str.forallb q s = true -> Str.forallb q (Str.cut p s).1 = true.
Proof.
  induction s as [|c s IH]; simpl; [reflexivity|].
  intros [Hc Hs]%andb_true_iff. destruct (p c); [reflexivity|].
  specialize (IH Hs). destruct (Str.cut p s). simpl in *. rewrite Hc. exact IH.
Qed.

Lemma forallb_break (p : ascii -> bool) (s : string) :
  Str.forallb q s = true -> Str.forallb q (Str.break p s).2 = true.
Proof.
  induction s as [|c s IH]; simpl; [reflexivity|].
  intros H. destruct (p c); [exact H|].
  apply andb_true_iff in H as [_ Hs].
  specialize (IH Hs). destruct (Str.break p s). exact IH.
Qed.

End Preserved.

Lemma split_scheme_no_colon (s : string) :
  Str.forallb (fun c => negb (Str.char ":" c)) s = true -> Url.split_scheme s = None.
Proof.
  intros H. unfold Url.split_scheme. destruct s as [|c s]; [reflexivity|].
  destruct (Chr.is_alpha c); [|reflexivity].
  pose proof (forallb_break _ (fun d => negb (Url.is_scheme_char d)) _ H) as Hb.
  destruct (Str.break _ _) as [sch [|d rest]]; [reflexivity|].
  cbn [Str.forallb snd] in Hb. apply andb_true_iff in Hb as [Hd _].
  unfold Str.char in Hd. rewrite Ascii.eqb_sym. apply negb_true_iff in Hd.
  rewrite Hd. reflexivity.
Qed.

Lemma parse_no_colon (input : string) :
  Str.forallb (fun c => negb (Str.char ":" c)) input = true ->
  Url.parse input = Url.Failure.
Proof.
  intros H. unfold Url.parse.
  assert (Hp : Str.forallb (fun c => negb (Str.char ":" c)) (Url.preprocess input) = true).
  { unfold Url.preprocess.
    apply forallb_filter, forallb_rev, forallb_drop_while, forallb_rev,
      forallb_drop_while, H. }
  pose proof (forallb_cut _ (Str.char "#") _ Hp) as H1.
  destruct (Str.cut _ (Url.preprocess input)) as [s f]. simpl in H1.
  pose proof (forallb_cut _ (Str.char "?") _ H1) as H2.
  destruct (Str.cut _ s) as [s' q]. simpl in H2.
  rewrite (split_scheme_no_colon _ H2). reflexivity.
Qed.

(** X11.  A stored base URL without any ":" has no scheme: [buildUrl]
    throws the [TypeError] of [new URL], whatever else is stored.  The empty
    string, a bare host name and a path alone are such base URLs. *)
Theorem buildUrl_throws_without_scheme (this : loc) (w : world) (o : RequestHandler) :
  heap w !! this = Some o ->
  Str.forallb (fun c => negb (Str.char ":" c)) (baseUrl o) = true ->
  result (buildUrl this) w = Throws (TypeError "Invalid URL")
  /\ after (buildUrl this) w = w.
Proof.
  intros Ho Hc. unfold result, after.
  rewrite (buildUrl_eq _ _ _ Ho), (parse_no_colon _ Hc). split; reflexivity.
Qed.

Lemma buildUrl_throws_without_scheme_witness :
  result (buildUrl 1%positive)
    (configured [Curl "conduit-api.bondaracademy.com/api"; Cparam [("limit", Number 10)]])
  = Throws (TypeError "Invalid URL").
Proof.
  exact (proj1 (buildUrl_throws_without_scheme 1%positive
    (configured [Curl "conduit-api.bondaracademy.com/api"; Cparam [("limit", Number 10)]])
    _ eq_refl eq_refl)).
Defined.
